(** * Relative pose of two spherical cameras: the sample [sphericalCam.hpp]

    A shallow embedding of [aliceVision::spherical_cam]
    (src/samples/robustEssentialSpherical/sphericalCam.hpp) and the
    properties of it that its specification states.

    Numbers.  A finite [double] is read as the real number it denotes and
    arithmetic on finite values is exact (no rounding, no overflow); [M_PI]
    is [PI].  What IEEE arithmetic returns where the real operation is
    undefined (a division by zero, [asin] outside [-1;1]) is kept apart as
    the value [NaN] of the type [double] below.

    Eigen.  A fixed-size vector ([Vec2], [Vec3], [Vec4], [Vec9]) is its
    coefficient function [nat -> T]; a fixed-size matrix ([Mat3], [Mat34])
    is [nat -> nat -> T], row index first; only the indices below the static
    size are ever read.  The dynamic [Mat] carries its two sizes. *)

From Stdlib Require Import Reals Lra Lia List Arith Bool String.
Import ListNotations.

Set Implicit Arguments.

Open Scope R_scope.

(** ** Values of type [double] *)

(** [Fin r] is the finite value [r].  [NaN] is the result of an operation
    that has no finite value; IEEE infinities (a nonzero value divided by
    zero) are not told apart from it: this program never turns one back into
    a finite number. *)
Inductive double : Type :=
  | Fin (r : R)
  | NaN.

Definition lift1 (f : R -> R) (a : double) : double :=
  match a with
  | Fin x => Fin (f x)
  | NaN => NaN
  end.

Definition lift2 (f : R -> R -> R) (a b : double) : double :=
  match a, b with
  | Fin x, Fin y => Fin (f x y)
  | _, _ => NaN
  end.

Definition dadd : double -> double -> double := lift2 Rplus.
Definition dmul : double -> double -> double := lift2 Rmult.
Definition dsin : double -> double := lift1 sin.
Definition dcos : double -> double := lift1 cos.
Definition dabs : double -> double := lift1 Rabs.

(** [a / b] on doubles: no finite value when the divisor is zero. *)
Definition ddiv (a b : double) : double :=
  match a, b with
  | Fin x, Fin y => if Req_dec_T y 0 then NaN else Fin (x / y)
  | _, _ => NaN
  end.

(** [sqrt]: a domain error below zero. *)
Definition dsqrt (a : double) : double :=
  match a with
  | Fin x => if Rlt_dec x 0 then NaN else Fin (sqrt x)
  | NaN => NaN
  end.

(** [asin] of <cmath>: a domain error outside [-1;1]. *)
Definition dasin (a : double) : double :=
  match a with
  | Fin x =>
      if Rlt_dec x (-1) then NaN
      else if Rlt_dec 1 x then NaN
      else Fin (asin x)
  | NaN => NaN
  end.

(** [0 < z] on doubles; every comparison with [NaN] is false. *)
Definition dpositive (z : double) : bool :=
  match z with
  | Fin x => if Rlt_dec 0 x then true else false
  | NaN => false
  end.

(** A [size_t] converted with [(double)]. *)
Definition of_size_t (n : nat) : double := Fin (INR n).

(** ** Eigen's dense objects *)

Definition Vec (T : Type) : Type := nat -> T.
Definition Vec2 := Vec R.
Definition Vec3 := Vec R.
Definition Vec4 := Vec R.
Definition Vec9 := Vec R.
Definition Mat3 := nat -> nat -> R.
Definition Mat34 := nat -> nat -> R.

(** The dynamic matrix [Mat]: [coef M r c] is [M(r, c)]. *)
Record MatOf (T : Type) : Type := mkMat {
  rows : nat;
  cols : nat;
  coef : nat -> nat -> T
}.

Definition Mat := MatOf R.

(** [M(r, c) = v]. *)
Definition mset {T} (M : MatOf T) (r c : nat) (v : T) : MatOf T :=
  mkMat (rows M) (cols M)
        (fun i j => if (i =? r)%nat && (j =? c)%nat then v else coef M i j).

(** [M.col(c)] read, and [M.col(c) = v] for a vector of three. *)
Definition col {T} (M : MatOf T) (c : nat) : Vec T := fun r => coef M r c.

Definition set_col3 {T} (M : MatOf T) (c : nat) (v : Vec T) : MatOf T :=
  mset (mset (mset M 0 c (v 0%nat)) 1 c (v 1%nat)) 2 c (v 2%nat).

(** The contents of a matrix and of a vector as lists, for comparing two of
    them coefficient by coefficient. *)
Definition vec_to_list {T} (n : nat) (v : Vec T) : list T :=
  map v (seq 0 n).

Definition to_lists {T} (M : MatOf T) : list (list T) :=
  map (fun r => map (fun c => coef M r c) (seq 0 (cols M))) (seq 0 (rows M)).

Definition mat3_to_lists (M : Mat3) : list (list R) :=
  map (fun r => vec_to_list 3 (M r)) (seq 0 3).

(** [Vec3(a, b, c)]. *)
Definition vec3 {T} (a b c : T) : Vec T :=
  fun i => match i with 0%nat => a | 1%nat => b | _ => c end.

(** Products, transpose and [asDiagonal] at the static size 3. *)
Definition mmul3 (A B : Mat3) : Mat3 :=
  fun i j => A i 0%nat * B 0%nat j + A i 1%nat * B 1%nat j + A i 2%nat * B 2%nat j.

Definition mulv3 (A : Mat3) (x : Vec3) : Vec3 :=
  fun i => A i 0%nat * x 0%nat + A i 1%nat * x 1%nat + A i 2%nat * x 2%nat.

Definition transpose (A : Mat3) : Mat3 := fun i j => A j i.

Definition asDiagonal (d : Vec3) : Mat3 :=
  fun i j => if (i =? j)%nat then d i else 0.

Definition dot3 (x y : Vec3) : R :=
  x 0%nat * y 0%nat + x 1%nat * y 1%nat + x 2%nat * y 2%nat.

Definition squaredNorm3 (x : Vec3) : R := dot3 x x.

Definition norm3 (x : Vec3) : R := sqrt (squaredNorm3 x).

(** ** Control: how a call ends *)

Inductive exception : Type :=
  | logic_error (what : string).

(** A call returns normally with the final value of what it writes, stops
    the program on a failed [assert] (asserts are taken as compiled in), or
    throws; what the call wrote before a throw stays visible to who catches
    it. *)
Inductive outcome (S : Type) : Type :=
  | Normal (s : S)
  | Abort
  | Throw (e : exception) (s : S).

Arguments Abort {S}.

Definition assert {S} (b : bool) (k : outcome S) : outcome S :=
  if b then k else Abort.

(** [robustEstimation::Mat3Model]: a 3x3 matrix behind [getMatrix]. *)
Record Mat3Model : Type := mkModel { getMatrix : Mat3 }.

(** [JacobiSVD<Mat3>] computed with full U and V. *)
Record SVD3 : Type := mkSVD {
  matrixU : Mat3;
  singularValues : Vec3;
  matrixV : Mat3
}.

(** ** The functions of [spherical_cam] *)

Section SphericalCam.

(** [Nullspace] of aliceVision/numeric/numeric.hpp is not among the sources
    ("null space extraction: finding the vector(s) that a linear system maps
    to zero, via singular value decomposition's smallest singular
    value(s)").  It is a parameter of every function that calls it; what a
    theorem needs of it is a hypothesis of that theorem. *)
Variable Nullspace : Mat -> Vec R.

(** Eigen's [JacobiSVD<Mat3>(E, ComputeFullU | ComputeFullV)], a parameter
    in the same way. *)
Variable JacobiSVD : Mat3 -> SVD3.

(** *** planarToSpherical *)

Definition M_PI : double := Fin PI.

(** Eigen's [normalized()] on a vector of three doubles: the vector
    divided by its norm, and the vector itself when the squared norm is
    not positive. *)
Definition squaredNorm3d (n : Vec double) : double :=
  dadd (dadd (dmul (n 0%nat) (n 0%nat)) (dmul (n 1%nat) (n 1%nat)))
       (dmul (n 2%nat) (n 2%nat)).

Definition normalized3d (n : Vec double) : Vec double :=
  let z := squaredNorm3d n in
  if dpositive z then fun i => ddiv (n i) (dsqrt z) else n.

(** [sphericalCoords.resize(r, c)]: the sizes change, the coefficients are
    whatever they were. *)
Definition resize {T} (M : MatOf T) (r c : nat) : MatOf T :=
  mkMat r c (coef M).

(** The vector the loop computes for the column [iCol]. *)
Definition planarToSpherical_column (planarCoords : Mat) (width height : nat)
    (iCol : nat) : Vec double :=
  let xy := col planarCoords iCol in
  let uval := ddiv (Fin (xy 0%nat)) (of_size_t width) in
  let vval := ddiv (Fin (xy 1%nat)) (of_size_t height) in
  normalized3d
    (vec3 (dmul (dsin (dmul vval M_PI))
                (dcos (dmul M_PI (dadd (dmul (Fin 2) uval) (Fin (5 / 10))))))
          (dcos (dmul vval M_PI))
          (dmul (dsin (dmul vval M_PI))
                (dsin (dmul M_PI (dadd (dmul (Fin 2) uval) (Fin (5 / 10))))))).

(** The body of the loop: [sphericalCoords.col(iCol) = ...]. *)
Definition planarToSpherical_body (planarCoords : Mat) (width height : nat)
    (sphericalCoords : MatOf double) (iCol : nat) : MatOf double :=
  set_col3 sphericalCoords iCol
           (planarToSpherical_column planarCoords width height iCol).

Definition planarToSpherical (planarCoords : Mat) (width height : nat)
    (sphericalCoords : MatOf double) : MatOf double :=
  fold_left (planarToSpherical_body planarCoords width height)
            (seq 0 (cols planarCoords))
            (resize sphericalCoords 3 (cols planarCoords)).

(** *** EightPointRelativePoseSolver *)

Definition getMinimumNbRequiredSamples : nat := 8.

Definition getMaximumNbModels : nat := 1.

(** One turn of the loop of [encodeEpipolarEquation]: the row [i] of [A]. *)
Definition encodeEpipolarEquation_body (x1 x2 : Mat) (A : Mat) (i : nat) : Mat :=
  let A := mset A i 0 (coef x2 0 i * coef x1 0 i) in
  let A := mset A i 1 (coef x2 0 i * coef x1 1 i) in
  let A := mset A i 2 (coef x2 0 i * coef x1 2 i) in
  let A := mset A i 3 (coef x2 1 i * coef x1 0 i) in
  let A := mset A i 4 (coef x2 1 i * coef x1 1 i) in
  let A := mset A i 5 (coef x2 1 i * coef x1 2 i) in
  let A := mset A i 6 (coef x2 2 i * coef x1 0 i) in
  let A := mset A i 7 (coef x2 2 i * coef x1 1 i) in
  let A := mset A i 8 (coef x2 2 i * coef x1 2 i) in
  A.

Definition encodeEpipolarEquation (x1 x2 : Mat) (A : Mat) : Mat :=
  fold_left (encodeEpipolarEquation_body x1 x2) (seq 0 (cols x1)) A.

(** [Map<RMat3>(e.data())]: nine numbers read as a 3x3 matrix, row after
    row. *)
Definition Map_RMat3 (e : Vec9) : Mat3 := fun r c => e (3 * r + c)%nat.

(** [MatX9 A(n, 9)] before it is filled. *)
Definition MatX9 (n : nat) : Mat := mkMat n 9 (fun _ _ => 0).

Definition solve (x1 x2 : Mat) (models : list Mat3Model)
    : outcome (list Mat3Model) :=
  assert (3 =? rows x1)%nat (
  assert (8 <=? cols x1)%nat (
  assert (rows x1 =? rows x2)%nat (
  assert (cols x1 =? cols x2)%nat (
    let A := encodeEpipolarEquation x1 x2 (MatX9 (cols x1)) in
    let e := Nullspace A in
    let E := Map_RMat3 e in
    let E :=
      if (8 <? cols x1)%nat then
        let USV := JacobiSVD E in
        let d := singularValues USV in
        let a := d 0%nat in
        let b := d 1%nat in
        let d := vec3 ((a + b) / 2) ((a + b) / 2) 0 in
        mmul3 (mmul3 (matrixU USV) (asDiagonal d)) (transpose (matrixV USV))
      else E in
    Normal (models ++ [mkModel E]))))).

(** The overload with weights. *)
Definition solve_weighted (x1 x2 : Mat) (models : list Mat3Model)
    (weights : list R) : outcome (list Mat3Model) :=
  Throw (logic_error
    "EightPointRelativePoseSolver does not support problem solving with weights.")
    models.

(** *** AngularError *)

(** Eigen's [normalized()] on three finite coefficients. *)
Definition normalized3 (n : Vec3) : Vec3 :=
  let z := squaredNorm3 n in
  if Rlt_dec 0 z then fun i => n i / sqrt z else n.

(** [error], in exact arithmetic.  The code divides in doubles: where the
    exact quotient is 1 or -1 ([x2] parallel to [E * x1]) the rounded
    quotient can exceed 1 in absolute value, and [asin] then returns [NaN]
    where this definition has [PI/2].  The statements about [error] below
    are those that hold whichever way that rounding goes. *)
Definition error (model : Mat3Model) (x1 x2 : Vec3) : double :=
  let Em1 := normalized3 (mulv3 (getMatrix model) x1) in
  let angleVal := Fin (dot3 x2 Em1) in
  let angleVal := ddiv angleVal (Fin (norm3 x2 * norm3 Em1)) in
  dabs (dasin angleVal).

(** *** EssentialKernel_spherical *)

(** The members of [PointFittingKernel] the sample reads: the two stored
    point sets (the solver and the error functor hold no data). *)
Record EssentialKernel_spherical : Type := mkKernel {
  _x1 : Mat;
  _x2 : Mat
}.

(** Modelled from the spec: [KernelBase::getMinimumNbRequiredSamples] of
    aliceVision/robustEstimation/PointFittingKernel.hpp, which is not
    among the sources; "numSamples(), getMinimumSamples() passthroughs". *)
Definition KernelBase_getMinimumNbRequiredSamples : nat :=
  getMinimumNbRequiredSamples.

Definition fit (k : EssentialKernel_spherical) (samples : list nat)
    (models : list Mat3Model) : outcome (list Mat3Model) :=
  assert (3 =? rows (_x1 k))%nat (
  assert (KernelBase_getMinimumNbRequiredSamples <=? cols (_x1 k))%nat (
  assert (rows (_x1 k) =? rows (_x2 k))%nat (
  assert (cols (_x1 k) =? cols (_x2 k))%nat (
    solve (_x1 k) (_x2 k) models)))).

(** *** TriangulateDLT *)

(** One turn of the loop: the column [i] of [design]. *)
Definition TriangulateDLT_body (P1 : Mat34) (x1 : Vec3) (P2 : Mat34) (x2 : Vec3)
    (design : Mat) (i : nat) : Mat :=
  let design := mset design 0 i (- x1 2%nat * P1 1%nat i + x1 1%nat * P1 2%nat i) in
  let design := mset design 1 i (x1 2%nat * P1 0%nat i - x1 0%nat * P1 2%nat i) in
  let design := mset design 2 i (- x1 1%nat * P1 0%nat i + x1 0%nat * P1 1%nat i) in
  let design := mset design 3 i (- x2 2%nat * P2 1%nat i + x2 1%nat * P2 2%nat i) in
  let design := mset design 4 i (x2 2%nat * P2 0%nat i - x2 0%nat * P2 2%nat i) in
  let design := mset design 5 i (- x2 1%nat * P2 0%nat i + x2 0%nat * P2 1%nat i) in
  design.

(** [design] when the loop is over. *)
Definition TriangulateDLT_design (P1 : Mat34) (x1 : Vec3) (P2 : Mat34) (x2 : Vec3)
    : Mat :=
  fold_left (TriangulateDLT_body P1 x1 P2 x2) (seq 0 4)
            (mkMat 6 4 (fun _ _ => 0)).

(** The overload that writes [X_homogeneous]; the argument is what the
    vector held before the call. *)
Definition TriangulateDLT (P1 : Mat34) (x1 : Vec3) (P2 : Mat34) (x2 : Vec3)
    (X_homogeneous : Vec4) : outcome Vec4 :=
  Normal (Nullspace (TriangulateDLT_design P1 x1 P2 x2)).

(** Modelled from the spec: [homogeneousToEuclidean] of
    aliceVision/numeric/projection.hpp, which is not among the sources.
    "A second overload divides by the homogeneous (4th) coordinate to
    return a euclidean point". *)
Definition homogeneousToEuclidean (H : Vec4) : Vec double :=
  let w := Fin (H 3%nat) in
  vec3 (ddiv (Fin (H 0%nat)) w) (ddiv (Fin (H 1%nat)) w) (ddiv (Fin (H 2%nat)) w).

(** The overload that writes [X_euclidean].  Its local [Vec4 X_homogeneous]
    starts with no particular content; a failure of the first overload
    would leave through this one with [X_euclidean] as it was. *)
Definition TriangulateDLT_euclidean (P1 : Mat34) (x1 : Vec3) (P2 : Mat34)
    (x2 : Vec3) (X_euclidean : Vec double) : outcome (Vec double) :=
  let X_homogeneous : Vec4 := fun _ => 0 in
  match TriangulateDLT P1 x1 P2 x2 X_homogeneous with
  | Normal X_homogeneous => Normal (homogeneousToEuclidean X_homogeneous)
  | Abort => Abort
  | Throw e _ => Throw e X_euclidean
  end.

End SphericalCam.

(** ** What the statements are written with *)

(** The input [solve] asserts: three rows, at least eight columns, two
    matrices of one shape. *)
Definition valid_input (x1 x2 : Mat) : Prop :=
  rows x1 = 3%nat /\ (8 <= cols x1)%nat /\
  rows x1 = rows x2 /\ cols x1 = cols x2.

(** The linear system [solve] hands to [Nullspace], and its solution read
    as a matrix, before any correction. *)
Definition epipolar_system (x1 x2 : Mat) : Mat :=
  encodeEpipolarEquation x1 x2 (MatX9 (cols x1)).

Definition linear_estimate (Nullspace : Mat -> Vec R) (x1 x2 : Mat) : Mat3 :=
  Map_RMat3 (Nullspace (epipolar_system x1 x2)).

(** [A * e], and [e] being a unit vector of the null space of [A]. *)
Definition mulv (A : Mat) (e : Vec R) : Vec R :=
  fun i => fold_right Rplus 0 (map (fun j => coef A i j * e j) (seq 0 (cols A))).

Definition squaredNorm (n : nat) (e : Vec R) : R :=
  fold_right Rplus 0 (map (fun j => e j * e j) (seq 0 n)).

Definition unit_null_vector (A : Mat) (e : Vec R) : Prop :=
  vec_to_list (rows A) (mulv A e) = repeat 0 (rows A) /\
  squaredNorm (cols A) e = 1.

(** Every column of a matrix of three rows is a direction: a vector of
    norm one. *)
Definition unit_columns (M : Mat) : Prop :=
  Forall (fun c => squaredNorm3 (col M c) = 1) (seq 0 (cols M)).

(** Orthogonal 3x3 matrices, and the singular values of a 3x3 matrix: the
    diagonal of any factorisation [U * diag(a, b, c) * V^T] with [U] and [V]
    orthogonal and [a >= b >= c >= 0]. *)
Definition identity3 : Mat3 := asDiagonal (vec3 1 1 1).

Definition orthogonal3 (U : Mat3) : Prop :=
  mat3_to_lists (mmul3 (transpose U) U) = mat3_to_lists identity3.

Definition svd_product (U : Mat3) (d : Vec3) (V : Mat3) : Mat3 :=
  mmul3 (mmul3 U (asDiagonal d)) (transpose V).

Definition has_singular_values (E : Mat3) (a b c : R) : Prop :=
  exists U V : Mat3,
    orthogonal3 U /\ orthogonal3 V /\ c <= b <= a /\ 0 <= c /\
    mat3_to_lists E = mat3_to_lists (svd_product U (vec3 a b c) V).

(** "Exactly two nonzero singular values, equal to each other", and a third
    that is zero. *)
Definition is_essential (E : Mat3) : Prop :=
  exists s : R, 0 < s /\ has_singular_values E s s 0.

(** What [JacobiSVD] promises of its result for the matrix [E]. *)
Definition svd_of (E : Mat3) (USV : SVD3) : Prop :=
  orthogonal3 (matrixU USV) /\ orthogonal3 (matrixV USV) /\
  singularValues USV 2%nat <= singularValues USV 1%nat <= singularValues USV 0%nat /\
  0 <= singularValues USV 2%nat /\
  mat3_to_lists E =
  mat3_to_lists (svd_product (matrixU USV) (singularValues USV) (matrixV USV)).

Definition det3 (E : Mat3) : R :=
  E 0%nat 0%nat * (E 1%nat 1%nat * E 2%nat 2%nat - E 1%nat 2%nat * E 2%nat 1%nat)
  - E 0%nat 1%nat * (E 1%nat 0%nat * E 2%nat 2%nat - E 1%nat 2%nat * E 2%nat 0%nat)
  + E 0%nat 2%nat * (E 1%nat 0%nat * E 2%nat 1%nat - E 1%nat 1%nat * E 2%nat 0%nat).

(** The correction of [solve] written on the result of the decomposition. *)
Definition manifold_projection (USV : SVD3) : Mat3 :=
  let s := (singularValues USV 0%nat + singularValues USV 1%nat) / 2 in
  svd_product (matrixU USV) (vec3 s s 0) (matrixV USV).

(** [fit] as the specification words it: "gathers the subset's direction
    vectors and delegates to EssentialSolver.solve". *)
Definition ExtractColumns (M : Mat) (samples : list nat) : Mat :=
  mkMat (rows M) (List.length samples) (fun r c => coef M r (nth c samples 0%nat)).

Definition fit_as_specified (Nullspace : Mat -> Vec R) (JacobiSVD : Mat3 -> SVD3)
    (k : EssentialKernel_spherical) (samples : list nat)
    (models : list Mat3Model) : outcome (list Mat3Model) :=
  solve Nullspace JacobiSVD (ExtractColumns (_x1 k) samples)
        (ExtractColumns (_x2 k) samples) models.

(** The matrix of [y |-> cross(x, y)], a 3x3 matrix times a 3x4 one, and two
    3x4 blocks one above the other. *)
Definition cross_matrix (x : Vec3) : Mat3 :=
  fun i j =>
    match i, j with
    | 0%nat, 1%nat => - x 2%nat
    | 0%nat, 2%nat => x 1%nat
    | 1%nat, 0%nat => x 2%nat
    | 1%nat, 2%nat => - x 0%nat
    | 2%nat, 0%nat => - x 1%nat
    | 2%nat, 1%nat => x 0%nat
    | _, _ => 0
    end.

Definition mmul34 (A : Mat3) (P : Mat34) : Mat34 :=
  fun i j => A i 0%nat * P 0%nat j + A i 1%nat * P 1%nat j + A i 2%nat * P 2%nat j.

Definition stacked (M N : Mat34) : Mat :=
  mkMat 6 4 (fun i j => if (i <? 3)%nat then M i j else N (i - 3)%nat j).

(** The system of [TriangulateDLT] as the specification words it: of each
    cross-product constraint "the two independent rows after dropping the
    redundant third". *)
Definition design_as_specified (P1 : Mat34) (x1 : Vec3) (P2 : Mat34) (x2 : Vec3)
    : Mat :=
  mkMat 4 4 (fun i j =>
    if (i <? 2)%nat then mmul34 (cross_matrix x1) P1 i j
    else mmul34 (cross_matrix x2) P2 (i - 2)%nat j).

(** The direction of the planar point [(x, y)] on a [width] x [height]
    panorama, as the specification writes it. *)
Definition normalize (v : Vec3) : Vec3 := fun i => v i / norm3 v.

Definition spherical_direction (x y : R) (width height : nat) : Vec3 :=
  let u := x / INR width in
  let v := y / INR height in
  normalize (vec3 (sin (v * PI) * cos (PI * (2 * u + 5 / 10)))
                  (cos (v * PI))
                  (sin (v * PI) * sin (PI * (2 * u + 5 / 10)))).

(** ** Concrete data *)

Definition vec_of_list (l : list R) : Vec R := fun i => nth i l 0.

Definition mat_of_rows (l : list (list R)) : Mat :=
  mkMat (List.length l) (List.length (hd [] l)) (fun r c => nth c (nth r l []) 0).

Definition mat3_of_rows (l : list (list R)) : Mat3 :=
  fun r c => nth c (nth r l []) 0.

(** Nine correspondences [x1 = (3a, 4b, c)], [x2 = (a, b, c')]: each satisfies
    [x2^T E x1 = 0] for [E = [[0, -3/5, 0], [4/5, 0, 0], [0, 0, 0]]]. *)
Definition nine_x1 : Mat :=
  mat_of_rows [[3; 0; 3; 3; 6; 3; 0; 6; 3];
               [0; 4; 4; 8; 4; 4; 4; 4; 12];
               [1; 1; 0; 1; 1; 2; 2; 0; 1]].

Definition nine_x2 : Mat :=
  mat_of_rows [[1; 0; 1; 1; 2; 1; 0; 2; 1];
               [0; 1; 1; 2; 1; 1; 1; 1; 3];
               [1; 1; 1; 0; 2; 1; 0; 1; 2]].

Definition nine_e : Vec9 := vec_of_list [0; - (3 / 5); 0; 4 / 5; 0; 0; 0; 0; 0].

Definition nine_Nullspace : Mat -> Vec R := fun _ => nine_e.

(** A decomposition of that [E]: singular values 4/5, 3/5 and 0. *)
Definition nine_USV : SVD3 :=
  mkSVD (mat3_of_rows [[0; -1; 0]; [1; 0; 0]; [0; 0; 1]])
        (vec_of_list [4 / 5; 3 / 5; 0])
        (mat3_of_rows [[1; 0; 0]; [0; 1; 0]; [0; 0; 1]]).

Definition nine_JacobiSVD : Mat3 -> SVD3 := fun _ => nine_USV.

Definition nine_kernel : EssentialKernel_spherical := mkKernel nine_x1 nine_x2.

(** Eight unit correspondences with [x2] orthogonal to [x1]: the only
    matrices [E] with [x2^T E x1 = 0] for all eight are the multiples of the
    identity. *)
Definition eight_x1 : Mat :=
  mat_of_rows [[0; 0; 1; 0; 1; 0; 3 / 5; 0];
               [1; 0; 0; 0; 0; 1; 4 / 5; 3 / 5];
               [0; 1; 0; 1; 0; 0; 0; 4 / 5]].

Definition eight_x2 : Mat :=
  mat_of_rows [[1; 1; 0; 0; 0; 0; 4 / 5; 0];
               [0; 0; 1; 1; 0; 0; - (3 / 5); 4 / 5];
               [0; 0; 0; 0; 1; 1; 0; - (3 / 5)]].

(** Two cameras [P1 = [I | 0]] and [P2 = [I | (-1, 0, 0)]] looking at the
    point (1, 2, 3). *)
Definition tri_P1 : Mat34 := mat3_of_rows [[1; 0; 0; 0]; [0; 1; 0; 0]; [0; 0; 1; 0]].
Definition tri_P2 : Mat34 := mat3_of_rows [[1; 0; 0; -1]; [0; 1; 0; 0]; [0; 0; 1; 0]].
Definition tri_x1 : Vec3 := vec_of_list [1; 2; 3].
Definition tri_x2 : Vec3 := vec_of_list [0; 2; 3].

(** The essential matrix of a translation along the third axis, its
    epipole [axis_z], and the unit vector [axis_x]. *)
Definition epi_E : Mat3 := mat3_of_rows [[0; -1; 0]; [1; 0; 0]; [0; 0; 0]].
Definition axis_x : Vec3 := vec_of_list [1; 0; 0].
Definition axis_z : Vec3 := vec_of_list [0; 0; 1].

(** One planar point on a 4 x 2 panorama, at the pole [v = 0]. *)
Definition one_point : Mat := mat_of_rows [[1]; [0]].

(** ** Scalings, cross products and more data *)

(** A matrix and a vector multiplied by a number. *)
Definition scale3 (c : R) (E : Mat3) : Mat3 := fun i j => c * E i j.

Definition scalev (c : R) (v : Vec R) : Vec R := fun i => c * v i.

(** A 3x3 matrix written row after row as nine coefficients: what
    [Map_RMat3] reads back. *)
Definition flatten3 (E : Mat3) : Vec9 := fun k => E (k / 3)%nat (k mod 3)%nat.

(** [cross(x, y)] and a 3x4 matrix applied to a homogeneous point. *)
Definition cross3 (x y : Vec3) : Vec3 :=
  vec3 (x 1%nat * y 2%nat - x 2%nat * y 1%nat)
       (x 2%nat * y 0%nat - x 0%nat * y 2%nat)
       (x 0%nat * y 1%nat - x 1%nat * y 0%nat).

Definition mulv34 (P : Mat34) (X : Vec4) : Vec3 :=
  fun i => P i 0%nat * X 0%nat + P i 1%nat * X 1%nat
           + P i 2%nat * X 2%nat + P i 3%nat * X 3%nat.

(** The unit null vector of the system of the eight correspondences. *)
Definition eight_e : Vec9 :=
  vec_of_list [/ sqrt 3; 0; 0; 0; / sqrt 3; 0; 0; 0; / sqrt 3].

Definition eight_Nullspace : Mat -> Vec R := fun _ => eight_e.

(** The point (1, 2, 3) the two cameras [tri_P1], [tri_P2] look at. *)
Definition tri_X : Vec4 := vec_of_list [1; 2; 3; 1].

Definition tri_Nullspace : Mat -> Vec R := fun _ => tri_X.

(** A point on the equator of a 4 x 2 panorama, the same point one width
    further and half a width further. *)
Definition mid_point : Mat := mat_of_rows [[1]; [1]].
Definition mid_point_wrapped : Mat := mat_of_rows [[5]; [1]].
Definition mid_point_opposite : Mat := mat_of_rows [[3]; [1]].

(** A point of the top row of that panorama. *)
Definition top_point : Mat := mat_of_rows [[3]; [0]].

(** ** Tactics *)

(** To compare two lists of reals, or two lists of such lists, entry by
    entry. *)
Ltac list_eq tac :=
  repeat first
    [ apply (f_equal2 (@cons R)); [tac|]
    | apply (f_equal2 (@cons (list R))) ];
  try reflexivity.

Ltac list_ring := list_eq ltac:(ring).

(** ** Properties *)

Unset Implicit Arguments.

(** *** Doubles, loops and assertions *)

Lemma assert_true {S} (b : bool) (k : outcome S) : b = true -> assert b k = k.
Proof. intros ->. reflexivity. Qed.

Lemma ddiv_Fin (x y : R) : y <> 0 -> ddiv (Fin x) (Fin y) = Fin (x / y).
Proof.
  intros Hy. unfold ddiv. destruct (Req_dec_T y 0); [contradiction|reflexivity].
Qed.

Lemma ddiv_zero (x : R) : ddiv (Fin x) (Fin 0) = NaN.
Proof.
  unfold ddiv. destruct (Req_dec_T 0 0) as [_|H]; [reflexivity|now elim H].
Qed.

Lemma dpositive_Fin (z : R) : 0 < z -> dpositive (Fin z) = true.
Proof.
  intros Hz. unfold dpositive. destruct (Rlt_dec 0 z); [reflexivity|contradiction].
Qed.

Lemma dsqrt_Fin (z : R) : 0 <= z -> dsqrt (Fin z) = Fin (sqrt z).
Proof.
  intros Hz. unfold dsqrt. destruct (Rlt_dec z 0); [lra|reflexivity].
Qed.

Lemma existsb_eqb_seq (r n : nat) :
  existsb (Nat.eqb r) (seq 0 n) = (r <? n)%nat.
Proof.
  destruct (r <? n)%nat eqn:E.
  - apply existsb_exists. exists r. split.
    + apply in_seq. apply Nat.ltb_lt in E. lia.
    + apply Nat.eqb_refl.
  - destruct (existsb (Nat.eqb r) (seq 0 n)) eqn:E'; [|reflexivity].
    apply existsb_exists in E'. destruct E' as (x & Hin & Hx).
    apply Nat.eqb_eq in Hx. subst x. apply in_seq in Hin.
    apply Nat.ltb_ge in E. lia.
Qed.

(** *** The projection on the sphere *)

(** [normalized()] on three finite coefficients that are not all zero. *)
Lemma normalized3d_Fin (a b c : R) (i : nat) :
  0 < squaredNorm3 (vec3 a b c) ->
  normalized3d (vec3 (Fin a) (Fin b) (Fin c)) i = Fin (normalize (vec3 a b c) i).
Proof.
  intros Hz. unfold normalized3d, squaredNorm3d, dadd, dmul, lift2.
  change (vec3 (Fin a) (Fin b) (Fin c) 0%nat) with (Fin a).
  change (vec3 (Fin a) (Fin b) (Fin c) 1%nat) with (Fin b).
  change (vec3 (Fin a) (Fin b) (Fin c) 2%nat) with (Fin c).
  cbv iota beta.
  change (a * a + b * b + c * c) with (squaredNorm3 (vec3 a b c)).
  rewrite dpositive_Fin by assumption.
  rewrite dsqrt_Fin by lra.
  assert (Hs : sqrt (squaredNorm3 (vec3 a b c)) <> 0)
    by apply Rgt_not_eq, sqrt_lt_R0, Hz.
  destruct i as [|[|[|i]]]; apply (ddiv_Fin _ _ Hs).
Qed.

(** A vector divided by its norm has norm one. *)
Lemma norm3_normalize (v : Vec3) : 0 < squaredNorm3 v -> norm3 (normalize v) = 1.
Proof.
  intros Hz. unfold norm3 at 1.
  replace (squaredNorm3 (normalize v)) with 1; [apply sqrt_1|].
  pose proof (sqrt_lt_R0 _ Hz) as Hs.
  pose proof (sqrt_sqrt (squaredNorm3 v) (Rlt_le _ _ Hz)) as Hq.
  unfold normalize, norm3, squaredNorm3 at 1, dot3.
  set (n := sqrt (squaredNorm3 v)) in *.
  assert (Hsum : v 0%nat * v 0%nat + v 1%nat * v 1%nat + v 2%nat * v 2%nat = n * n)
    by (rewrite Hq; reflexivity).
  field_simplify_eq; [|lra]. lra.
Qed.

(** The vector before normalisation lies on the unit sphere already. *)
Lemma equirectangular_squaredNorm (u v : R) :
  squaredNorm3 (vec3 (sin (v * PI) * cos (PI * (2 * u + 5 / 10)))
                     (cos (v * PI))
                     (sin (v * PI) * sin (PI * (2 * u + 5 / 10)))) = 1.
Proof.
  unfold squaredNorm3, dot3, vec3.
  pose proof (sin2_cos2 (v * PI)) as H1.
  pose proof (sin2_cos2 (PI * (2 * u + 5 / 10))) as H2.
  unfold Rsqr in H1, H2.
  set (s := sin (v * PI)) in *. set (c := cos (v * PI)) in *.
  set (sa := sin (PI * (2 * u + 5 / 10))) in *.
  set (ca := cos (PI * (2 * u + 5 / 10))) in *.
  replace (s * ca * (s * ca) + c * c + s * sa * (s * sa))
    with (s * s * (sa * sa + ca * ca) + c * c) by ring.
  rewrite H2. lra.
Qed.

Lemma planarToSpherical_column_Fin (planarCoords : Mat) (width height iCol i : nat) :
  (0 < width)%nat -> (0 < height)%nat ->
  planarToSpherical_column planarCoords width height iCol i =
  Fin (spherical_direction (coef planarCoords 0 iCol) (coef planarCoords 1 iCol)
                           width height i).
Proof.
  intros Hw Hh.
  assert (Hw' : INR width <> 0) by (apply not_0_INR; lia).
  assert (Hh' : INR height <> 0) by (apply not_0_INR; lia).
  unfold planarToSpherical_column, spherical_direction, col, of_size_t, M_PI.
  cbv zeta. rewrite !ddiv_Fin by assumption.
  unfold dmul, dadd, dsin, dcos, lift1, lift2.
  set (u := coef planarCoords 0 iCol / INR width).
  set (v := coef planarCoords 1 iCol / INR height).
  apply normalized3d_Fin.
  rewrite equirectangular_squaredNorm. lra.
Qed.

Lemma set_col3_sizes {T} (M : MatOf T) (c : nat) (v : Vec T) :
  rows (set_col3 M c v) = rows M /\ cols (set_col3 M c v) = cols M.
Proof. split; reflexivity. Qed.

Lemma set_col3_coef {T} (M : MatOf T) (c : nat) (v : Vec T) (r j : nat) :
  (r < 3)%nat ->
  coef (set_col3 M c v) r j = if (j =? c)%nat then v r else coef M r j.
Proof.
  intros Hr. unfold set_col3, mset; simpl.
  destruct (j =? c)%nat; rewrite ?andb_false_r; [|reflexivity].
  destruct r as [|[|[|r]]]; simpl; try reflexivity. lia.
Qed.

Lemma planarToSpherical_fold_sizes (planarCoords : Mat) (width height : nat)
    (l : list nat) (M : MatOf double) :
  rows (fold_left (planarToSpherical_body planarCoords width height) l M) = rows M /\
  cols (fold_left (planarToSpherical_body planarCoords width height) l M) = cols M.
Proof.
  revert M. induction l as [|i l IH]; intros M; simpl; [tauto|].
  destruct (IH (planarToSpherical_body planarCoords width height M i)) as [-> ->].
  split; reflexivity.
Qed.

(** After the loop a column the loop went through holds the vector computed
    for it; the others hold what they held. *)
Lemma planarToSpherical_fold_coef (planarCoords : Mat) (width height : nat)
    (l : list nat) (M : MatOf double) (r c : nat) :
  (r < 3)%nat ->
  coef (fold_left (planarToSpherical_body planarCoords width height) l M) r c =
  if existsb (Nat.eqb c) l
  then planarToSpherical_column planarCoords width height c r
  else coef M r c.
Proof.
  intros Hr. revert M. induction l as [|i l IH]; intros M; simpl; [reflexivity|].
  rewrite IH. unfold planarToSpherical_body at 1.
  rewrite set_col3_coef by assumption.
  destruct (c =? i)%nat eqn:E; simpl.
  - apply Nat.eqb_eq in E. subst i. now destruct (existsb (Nat.eqb c) l).
  - reflexivity.
Qed.

(** C8.  On a panorama of positive width and height, [planarToSpherical]
    returns a matrix of three rows and as many columns as there are planar
    points, and the column of the point [(x, y)] is the finite vector
    [normalize (sin(v*PI) * cos(PI*(2u+0.5)), cos(v*PI),
    sin(v*PI) * sin(PI*(2u+0.5)))] with [u = x / width] and [v = y / height];
    that vector has norm 1.  This holds for every point, the poles [v = 0]
    and [v = 1] included, and whatever the output matrix held before. *)
Theorem planarToSpherical_unit_directions (planarCoords : Mat)
    (width height : nat) (sphericalCoords : MatOf double) (iCol : nat) :
  (0 < width)%nat -> (0 < height)%nat -> (iCol < cols planarCoords)%nat ->
  let out := planarToSpherical planarCoords width height sphericalCoords in
  let direction :=
    spherical_direction (coef planarCoords 0 iCol) (coef planarCoords 1 iCol)
                        width height in
  rows out = 3%nat /\ cols out = cols planarCoords /\
  vec_to_list 3 (col out iCol) = map Fin (vec_to_list 3 direction) /\
  norm3 direction = 1.
Proof.
  intros Hw Hh Hi out direction.
  unfold out, planarToSpherical.
  destruct (planarToSpherical_fold_sizes planarCoords width height
              (seq 0 (cols planarCoords))
              (resize sphericalCoords 3 (cols planarCoords))) as [Hrows Hcols].
  split; [exact Hrows|]. split; [exact Hcols|]. split.
  - unfold vec_to_list, col. simpl.
    rewrite !planarToSpherical_fold_coef by lia.
    rewrite existsb_eqb_seq.
    apply Nat.ltb_lt in Hi. rewrite Hi.
    rewrite !planarToSpherical_column_Fin by assumption.
    reflexivity.
  - unfold direction, spherical_direction. cbv zeta.
    apply norm3_normalize. rewrite equirectangular_squaredNorm. lra.
Qed.

(** *** The angular error *)

(** The inequality of Cauchy and Schwarz for three coordinates. *)
Lemma dot3_squared_le (x y : Vec3) :
  dot3 x y * dot3 x y <= squaredNorm3 x * squaredNorm3 y.
Proof.
  unfold squaredNorm3, dot3.
  set (a := x 0%nat). set (b := x 1%nat). set (c := x 2%nat).
  set (p := y 0%nat). set (q := y 1%nat). set (r := y 2%nat).
  assert (H : (a * a + b * b + c * c) * (p * p + q * q + r * r)
              - (a * p + b * q + c * r) * (a * p + b * q + c * r)
              = (a * q - b * p) * (a * q - b * p)
                + (a * r - c * p) * (a * r - c * p)
                + (b * r - c * q) * (b * r - c * q)) by ring.
  pose proof (Rle_0_sqr (a * q - b * p)) as H1.
  pose proof (Rle_0_sqr (a * r - c * p)) as H2.
  pose proof (Rle_0_sqr (b * r - c * q)) as H3.
  unfold Rsqr in H1, H2, H3. lra.
Qed.

Lemma squaredNorm3_nonneg (x : Vec3) : 0 <= squaredNorm3 x.
Proof.
  unfold squaredNorm3, dot3.
  pose proof (Rle_0_sqr (x 0%nat)) as H0.
  pose proof (Rle_0_sqr (x 1%nat)) as H1.
  pose proof (Rle_0_sqr (x 2%nat)) as H2.
  unfold Rsqr in H0, H1, H2. lra.
Qed.

Lemma dot3_abs_le (x y : Vec3) : Rabs (dot3 x y) <= norm3 x * norm3 y.
Proof.
  unfold norm3.
  rewrite <- sqrt_mult by apply squaredNorm3_nonneg.
  rewrite <- sqrt_Rsqr_abs.
  apply sqrt_le_1_alt. unfold Rsqr. apply dot3_squared_le.
Qed.

(** [normalized()] divides by the norm exactly when the vector is not zero. *)
Lemma normalized3_nonzero (n : Vec3) :
  0 < squaredNorm3 n -> normalized3 n = normalize n.
Proof.
  intros Hz. unfold normalized3.
  destruct (Rlt_dec 0 (squaredNorm3 n)); [reflexivity|contradiction].
Qed.

Lemma normalized3_zero (n : Vec3) : squaredNorm3 n = 0 -> normalized3 n = n.
Proof.
  intros Hz. unfold normalized3.
  destruct (Rlt_dec 0 (squaredNorm3 n)); [lra|reflexivity].
Qed.

(** When the model maps [x1] to the zero vector the quotient is 0/0. *)
Lemma error_NaN (model : Mat3Model) (x1 x2 : Vec3) :
  squaredNorm3 (mulv3 (getMatrix model) x1) = 0 -> error model x1 x2 = NaN.
Proof.
  intros Hz. unfold error.
  rewrite (normalized3_zero _ Hz).
  unfold norm3 at 2. rewrite Hz, sqrt_0, Rmult_0_r, ddiv_zero.
  reflexivity.
Qed.

(** C7, at the failing input.  [epi_E] is an essential matrix (singular
    values 1, 1 and 0), [x1 = (0, 0, 1)] and [x2 = (1, 0, 0)] are unit
    vectors, and [x1] is the epipole: [E * x1] is the zero vector, which
    [normalized()] returns as it is, the quotient is 0/0 and [error] is
    [NaN], no number of [0; PI/2]. *)
Theorem error_at_epipole_is_NaN :
  is_essential epi_E /\
  norm3 axis_z = 1 /\ norm3 axis_x = 1 /\
  vec_to_list 3 (normalized3 (mulv3 epi_E axis_z)) = [0; 0; 0] /\
  error (mkModel epi_E) axis_z axis_x = NaN /\
  ~ (exists r : R, error (mkModel epi_E) axis_z axis_x = Fin r /\ 0 <= r <= PI / 2).
Proof.
  assert (Hz : norm3 axis_z = 1).
  { unfold norm3, squaredNorm3, dot3, axis_z, vec_of_list; simpl.
    replace (0 * 0 + 0 * 0 + 1 * 1) with 1 by ring. apply sqrt_1. }
  assert (Hx : norm3 axis_x = 1).
  { unfold norm3, squaredNorm3, dot3, axis_x, vec_of_list; simpl.
    replace (1 * 1 + 0 * 0 + 0 * 0) with 1 by ring. apply sqrt_1. }
  assert (Hv : squaredNorm3 (mulv3 epi_E axis_z) = 0).
  { unfold squaredNorm3, dot3, mulv3, epi_E, axis_z, mat3_of_rows, vec_of_list;
      simpl. ring. }
  assert (He : error (mkModel epi_E) axis_z axis_x = NaN)
    by (apply error_NaN; exact Hv).
  split; [|split; [exact Hz|split; [exact Hx|split; [|split; [exact He|]]]]].
  - exists 1. split; [lra|].
    exists (mat3_of_rows [[0; -1; 0]; [1; 0; 0]; [0; 0; 1]]),
           (mat3_of_rows [[1; 0; 0]; [0; 1; 0]; [0; 0; 1]]).
    unfold orthogonal3, mat3_to_lists, vec_to_list, svd_product, identity3,
      mmul3, transpose, asDiagonal, epi_E, mat3_of_rows. simpl.
    split; [list_ring|]. split; [list_ring|]. split; [lra|]. split; [lra|].
    list_ring.
  - rewrite (normalized3_zero _ Hv).
    unfold vec_to_list, mulv3, epi_E, axis_z, mat3_of_rows, vec_of_list. simpl.
    list_ring.
  - intros (r & Hr & _). rewrite He in Hr. discriminate Hr.
Qed.

(** *** The linear system of the solver *)

(** The loop of [encodeEpipolarEquation] keeps the sizes of [A] and writes,
    in each row below [x1.cols()], the nine products of the coordinates of
    the two points of that column; the rows it does not reach keep what they
    held. *)
Lemma encodeEpipolarEquation_sizes (x1 x2 : Mat) (l : list nat) (A : Mat) :
  rows (fold_left (encodeEpipolarEquation_body x1 x2) l A) = rows A /\
  cols (fold_left (encodeEpipolarEquation_body x1 x2) l A) = cols A.
Proof.
  revert A. induction l as [|i l IH]; intros A; simpl; [tauto|].
  destruct (IH (encodeEpipolarEquation_body x1 x2 A i)) as [-> ->].
  split; reflexivity.
Qed.

Lemma encodeEpipolarEquation_body_coef (x1 x2 A : Mat) (i r c : nat) :
  (c < 9)%nat ->
  coef (encodeEpipolarEquation_body x1 x2 A i) r c =
  if (r =? i)%nat then coef x2 (c / 3)%nat i * coef x1 (c mod 3)%nat i
  else coef A r c.
Proof.
  intros Hc. unfold encodeEpipolarEquation_body, mset; simpl.
  destruct (r =? i)%nat; simpl; [|reflexivity].
  do 9 (destruct c as [|c]; [reflexivity|]). lia.
Qed.

Lemma encodeEpipolarEquation_fold_coef (x1 x2 : Mat) (l : list nat) (A : Mat)
    (r c : nat) :
  (c < 9)%nat ->
  coef (fold_left (encodeEpipolarEquation_body x1 x2) l A) r c =
  if existsb (Nat.eqb r) l then coef x2 (c / 3)%nat r * coef x1 (c mod 3)%nat r
  else coef A r c.
Proof.
  intros Hc. revert A. induction l as [|i l IH]; intros A; simpl; [reflexivity|].
  rewrite IH, encodeEpipolarEquation_body_coef by assumption.
  destruct (r =? i)%nat eqn:E; simpl.
  - apply Nat.eqb_eq in E. subst i. now destruct (existsb (Nat.eqb r) l).
  - reflexivity.
Qed.

(** Row [i] of the system is the constraint [x2_i^T E x1_i = 0] on the nine
    entries of [E] taken row after row, whatever [A] held before. *)
Lemma encodeEpipolarEquation_coef (x1 x2 A : Mat) (i c : nat) :
  (i < cols x1)%nat -> (c < 9)%nat ->
  coef (encodeEpipolarEquation x1 x2 A) i c =
  coef x2 (c / 3)%nat i * coef x1 (c mod 3)%nat i.
Proof.
  intros Hi Hc. unfold encodeEpipolarEquation.
  rewrite encodeEpipolarEquation_fold_coef, existsb_eqb_seq by assumption.
  now apply Nat.ltb_lt in Hi as ->.
Qed.

Lemma epipolar_system_sizes (x1 x2 : Mat) :
  rows (epipolar_system x1 x2) = cols x1 /\ cols (epipolar_system x1 x2) = 9%nat.
Proof.
  unfold epipolar_system, encodeEpipolarEquation.
  destruct (encodeEpipolarEquation_sizes x1 x2 (seq 0 (cols x1)) (MatX9 (cols x1)))
    as [-> ->].
  split; reflexivity.
Qed.

(** C6. Whatever the two point sets, the list of models and the weights,
    the overload of [solve] that takes weights throws [std::logic_error]
    ("... does not support problem solving with weights."): it does not
    return, it appends no model, and the list it was given is as it was. *)
Theorem solve_weighted_unsupported (x1 x2 : Mat) (models : list Mat3Model)
    (weights : list R) :
  solve_weighted x1 x2 models weights =
  Throw (logic_error
    "EightPointRelativePoseSolver does not support problem solving with weights.")
    models /\
  (forall models' : list Mat3Model,
     solve_weighted x1 x2 models weights <> Normal models') /\
  solve_weighted x1 x2 models weights <> Abort.
Proof.
  unfold solve_weighted. repeat split; intros; discriminate.
Qed.

(** The corrected matrix has the singular values (s, s, 0), s being the mean
    of the two largest singular values found, as soon as the factors of the
    decomposition are orthogonal. *)
Lemma manifold_projection_singular_values (USV : SVD3) :
  orthogonal3 (matrixU USV) -> orthogonal3 (matrixV USV) ->
  0 <= singularValues USV 0%nat + singularValues USV 1%nat ->
  let s := (singularValues USV 0%nat + singularValues USV 1%nat) / 2 in
  has_singular_values (manifold_projection USV) s s 0.
Proof.
  intros HU HV Hd s.
  exists (matrixU USV), (matrixV USV).
  repeat split; try assumption; unfold s; try lra.
Qed.

(** *** The system of the triangulation *)

(** The system of [TriangulateDLT] is the one of the specification's words
    nowhere: at the two cameras [tri_P1], [tri_P2] it has six rows where the
    specification's has four, and its third row, the one the specification
    drops, is [(-2, 1, 0, 0)]. *)
Lemma TriangulateDLT_design_not_as_specified :
  rows (TriangulateDLT_design tri_P1 tri_x1 tri_P2 tri_x2) = 6%nat /\
  rows (design_as_specified tri_P1 tri_x1 tri_P2 tri_x2) = 4%nat /\
  nth 2 (to_lists (TriangulateDLT_design tri_P1 tri_x1 tri_P2 tri_x2)) [] =
    [- 2 * 1 + 1 * 0; - 2 * 0 + 1 * 1; - 2 * 0 + 1 * 0; - 2 * 0 + 1 * 0] /\
  to_lists (TriangulateDLT_design tri_P1 tri_x1 tri_P2 tri_x2) <>
  to_lists (design_as_specified tri_P1 tri_x1 tri_P2 tri_x2).
Proof.
  split; [reflexivity|]. split; [reflexivity|]. split; [reflexivity|].
  intros H. apply (f_equal (@List.length (list R))) in H. discriminate H.
Qed.

(** *** The essential-matrix structure *)

(** A matrix with a singular value 0 is singular. *)
Lemma has_singular_values_zero_det (E : Mat3) (a b : R) :
  has_singular_values E a b 0 -> det3 E = 0.
Proof.
  intros (U & V & _ & _ & _ & _ & HE).
  unfold mat3_to_lists, vec_to_list in HE. simpl in HE.
  injection HE as H00 H01 H02 H10 H11 H12 H20 H21 H22.
  unfold det3.
  rewrite H00, H01, H02, H10, H11, H12, H20, H21, H22.
  unfold svd_product, mmul3, asDiagonal, transpose, vec3. simpl. ring.
Qed.

Lemma is_essential_zero_det (E : Mat3) : is_essential E -> det3 E = 0.
Proof.
  intros (s & _ & Hs). exact (has_singular_values_zero_det _ _ _ Hs).
Qed.

(** A decomposition whose singular values are all zero is one of the zero
    matrix. *)
Lemma svd_product_zero (U : Mat3) (d : Vec3) (V : Mat3) :
  d 0%nat = 0 -> d 1%nat = 0 -> d 2%nat = 0 ->
  mat3_to_lists (svd_product U d V) = mat3_to_lists (fun _ _ => 0).
Proof.
  intros H0 H1 H2.
  unfold mat3_to_lists, vec_to_list, svd_product, mmul3, asDiagonal, transpose.
  simpl. rewrite H0, H1, H2. list_ring.
Qed.

(** The largest singular value of a matrix read from a unit vector of nine
    coefficients is positive. *)
Lemma svd_of_unit_positive (e : Vec9) (USV : SVD3) :
  svd_of (Map_RMat3 e) USV -> squaredNorm 9 e = 1 ->
  0 < singularValues USV 0%nat.
Proof.
  intros (_ & _ & Hord & Hd2 & HE) Hunit.
  destruct (Rlt_dec 0 (singularValues USV 0%nat)) as [Hpos|Hneg]; [exact Hpos|].
  exfalso.
  rewrite svd_product_zero in HE by lra.
  unfold mat3_to_lists, vec_to_list, Map_RMat3 in HE. simpl in HE.
  injection HE as H0 H1 H2 H3 H4 H5 H6 H7 H8.
  unfold squaredNorm in Hunit. simpl in Hunit.
  rewrite H0, H1, H2, H3, H4, H5, H6, H7, H8 in Hunit. lra.
Qed.

(** *** The functions that call [Nullspace] and [JacobiSVD] *)

Section Solver.

Variable Nullspace : Mat -> Vec R.
Variable JacobiSVD : Mat3 -> SVD3.

(** On a valid input the four assertions pass and one model is written. *)
Lemma solve_valid (x1 x2 : Mat) (models : list Mat3Model) :
  valid_input x1 x2 ->
  solve Nullspace JacobiSVD x1 x2 models =
  Normal (models ++
    [mkModel (if (8 <? cols x1)%nat
              then manifold_projection (JacobiSVD (linear_estimate Nullspace x1 x2))
              else linear_estimate Nullspace x1 x2)]).
Proof.
  intros (Hr & Hc & Hr2 & Hc2).
  unfold solve.
  rewrite !assert_true.
  - reflexivity.
  - now apply Nat.eqb_eq.
  - now apply Nat.eqb_eq.
  - now apply Nat.leb_le.
  - apply Nat.eqb_eq. now symmetry.
Qed.

(** An input that is not valid stops at an assertion. *)
Lemma solve_invalid (x1 x2 : Mat) (models : list Mat3Model) :
  ~ valid_input x1 x2 -> solve Nullspace JacobiSVD x1 x2 models = Abort.
Proof.
  intros Hn. unfold solve, assert.
  destruct (3 =? rows x1)%nat eqn:H1; [|reflexivity].
  destruct (8 <=? cols x1)%nat eqn:H2; [|reflexivity].
  destruct (rows x1 =? rows x2)%nat eqn:H3; [|reflexivity].
  destruct (cols x1 =? cols x2)%nat eqn:H4; [|reflexivity].
  exfalso. apply Hn.
  apply Nat.eqb_eq in H1, H3, H4. apply Nat.leb_le in H2.
  repeat split; auto.
Qed.

(** C5. The solver asks for at least 8 samples and announces at most 1
    model, and on every valid input (two 3xN matrices of one shape, N >= 8)
    the call without weights returns normally having appended exactly one
    model to the list it was given. *)
Theorem solve_appends_one_model (x1 x2 : Mat) (models : list Mat3Model) :
  valid_input x1 x2 ->
  getMinimumNbRequiredSamples = 8%nat /\
  getMaximumNbModels = 1%nat /\
  exists model : Mat3Model,
    solve Nullspace JacobiSVD x1 x2 models = Normal (models ++ [model]) /\
    List.length (models ++ [model]) = (List.length models + getMaximumNbModels)%nat.
Proof.
  intros Hv. split; [reflexivity|]. split; [reflexivity|].
  eexists. split.
  - apply solve_valid, Hv.
  - rewrite length_app. reflexivity.
Qed.

(** C4. On a valid input [solve] replaces the linear estimate [E] by
    [U * diag((d0+d1)/2, (d0+d1)/2, 0) * V^T] when there are strictly more
    than 8 correspondences, and returns [E] as [Nullspace] gave it when
    there are exactly 8.  In the first case the model has the singular
    values (s, s, 0) with s = (d0+d1)/2, the factors U and V of the
    decomposition being orthogonal and d0 + d1 >= 0. *)
Theorem solve_corrects_iff_more_than_eight (x1 x2 : Mat) (models : list Mat3Model) :
  valid_input x1 x2 ->
  let E := linear_estimate Nullspace x1 x2 in
  let USV := JacobiSVD E in
  let s := (singularValues USV 0%nat + singularValues USV 1%nat) / 2 in
  ((8 < cols x1)%nat ->
     solve Nullspace JacobiSVD x1 x2 models =
     Normal (models ++
       [mkModel (svd_product (matrixU USV) (vec3 s s 0) (matrixV USV))])) /\
  (cols x1 = 8%nat ->
     solve Nullspace JacobiSVD x1 x2 models = Normal (models ++ [mkModel E])) /\
  ((8 < cols x1)%nat ->
     orthogonal3 (matrixU USV) -> orthogonal3 (matrixV USV) ->
     0 <= singularValues USV 0%nat + singularValues USV 1%nat ->
     forall model : Mat3Model,
       solve Nullspace JacobiSVD x1 x2 models = Normal (models ++ [model]) ->
       has_singular_values (getMatrix model) s s 0).
Proof.
  intros Hv E USV s. rewrite (solve_valid _ _ models Hv).
  split; [|split].
  - intros Hlt. apply Nat.ltb_lt in Hlt. rewrite Hlt. reflexivity.
  - intros Heq. rewrite Heq. reflexivity.
  - intros Hlt HU HV Hd model Hm.
    apply Nat.ltb_lt in Hlt. rewrite Hlt in Hm.
    injection Hm as Hm. apply app_inv_head in Hm. injection Hm as <-.
    apply manifold_projection_singular_values; assumption.
Qed.

(** [fit] never reads [samples]: it runs the solver on the two stored sets. *)
Lemma fit_solves_stored_sets (k : EssentialKernel_spherical) (samples : list nat)
    (models : list Mat3Model) :
  fit Nullspace JacobiSVD k samples models =
  solve Nullspace JacobiSVD (_x1 k) (_x2 k) models.
Proof.
  unfold fit, KernelBase_getMinimumNbRequiredSamples, getMinimumNbRequiredSamples.
  unfold solve, assert.
  destruct (3 =? rows (_x1 k))%nat; [|reflexivity].
  destruct (8 <=? cols (_x1 k))%nat; [|reflexivity].
  destruct (rows (_x1 k) =? rows (_x2 k))%nat; [|reflexivity].
  destruct (cols (_x1 k) =? cols (_x2 k))%nat; reflexivity.
Qed.

(** C10. The assertions of [fit] look at the stored correspondence set and
    not at the sample: when the stored set is a valid input of the solver
    (two 3xN matrices of one shape, N >= 8), [fit] passes them and returns
    normally with one more model for every list of sample indices, lists of
    fewer than 8 indices and the empty list included. *)
Theorem fit_checks_stored_set (k : EssentialKernel_spherical)
    (models : list Mat3Model) :
  valid_input (_x1 k) (_x2 k) ->
  forall samples : list nat,
    fit Nullspace JacobiSVD k samples models <> Abort /\
    exists model : Mat3Model,
      fit Nullspace JacobiSVD k samples models = Normal (models ++ [model]).
Proof.
  intros Hv samples.
  rewrite fit_solves_stored_sets, (solve_valid _ _ models Hv).
  split; [discriminate|]. eexists. reflexivity.
Qed.

(** Conversely a stored set that is not a valid input stops [fit] at an
    assertion whatever the sample. *)
Lemma fit_aborts_on_invalid_stored_set (k : EssentialKernel_spherical)
    (samples : list nat) (models : list Mat3Model) :
  ~ valid_input (_x1 k) (_x2 k) ->
  fit Nullspace JacobiSVD k samples models = Abort.
Proof.
  intros Hn. rewrite fit_solves_stored_sets. now apply solve_invalid.
Qed.

(** C1, at the kernel of nine correspondences and the sample 0..7.  [fit]
    solves the system of all nine correspondences (nine rows, the last one
    made of the correspondence 8, which is not in the sample) and applies
    the correction for more than eight points; gathering the sample first,
    as the specification has it, solves a system of eight rows and applies
    no correction. *)
Theorem fit_ignores_the_sample :
  let samples := [0; 1; 2; 3; 4; 5; 6; 7]%nat in
  fit Nullspace JacobiSVD nine_kernel samples [] =
    Normal [mkModel (manifold_projection
                       (JacobiSVD (linear_estimate Nullspace nine_x1 nine_x2)))] /\
  rows (epipolar_system nine_x1 nine_x2) = 9%nat /\
  nth 8 (to_lists (epipolar_system nine_x1 nine_x2)) [] =
    [1 * 3; 1 * 12; 1 * 1; 3 * 3; 3 * 12; 3 * 1; 2 * 3; 2 * 12; 2 * 1] /\
  fit_as_specified Nullspace JacobiSVD nine_kernel samples [] =
    Normal [mkModel (linear_estimate Nullspace
                       (ExtractColumns nine_x1 samples)
                       (ExtractColumns nine_x2 samples))] /\
  rows (epipolar_system (ExtractColumns nine_x1 samples)
                        (ExtractColumns nine_x2 samples)) = 8%nat.
Proof.
  intros samples. split; [|split; [|split; [|split]]].
  - rewrite fit_solves_stored_sets. reflexivity.
  - apply epipolar_system_sizes.
  - reflexivity.
  - reflexivity.
  - apply epipolar_system_sizes.
Qed.

(** C2.  The system of the homogeneous [TriangulateDLT] has six rows and
    four columns: the three rows of [cross(x1, .) * P1] above the three rows
    of [cross(x2, .) * P2].  No row is dropped, although in each block the
    rows weighted by the coordinates of the direction sum to zero.  The
    point written to [X_homogeneous] is what [Nullspace] returns for that
    system. *)
Theorem TriangulateDLT_system (P1 : Mat34) (x1 : Vec3) (P2 : Mat34) (x2 : Vec3) :
  let design := TriangulateDLT_design P1 x1 P2 x2 in
  rows design = 6%nat /\ cols design = 4%nat /\
  to_lists design =
    to_lists (stacked (mmul34 (cross_matrix x1) P1) (mmul34 (cross_matrix x2) P2)) /\
  map (fun j => x1 0%nat * coef design 0 j + x1 1%nat * coef design 1 j
                + x1 2%nat * coef design 2 j) (seq 0 4) = [0; 0; 0; 0] /\
  map (fun j => x2 0%nat * coef design 3 j + x2 1%nat * coef design 4 j
                + x2 2%nat * coef design 5 j) (seq 0 4) = [0; 0; 0; 0] /\
  (forall X_homogeneous : Vec4,
     TriangulateDLT Nullspace P1 x1 P2 x2 X_homogeneous =
     Normal (Nullspace design)).
Proof.
  intros design.
  split; [reflexivity|]. split; [reflexivity|].
  split; [|split; [|split]].
  - unfold design, to_lists, stacked, mmul34, cross_matrix. simpl. list_ring.
  - unfold design. simpl. list_ring.
  - unfold design. simpl. list_ring.
  - reflexivity.
Qed.

(** C9.  The euclidean [TriangulateDLT] returns normally on every input: it
    neither stops at an assertion nor throws.  What it writes is the
    homogeneous point of the first overload with its first three
    coordinates divided by the fourth; nothing tests that fourth coordinate,
    so when it is zero the three quotients are written all the same and are
    not finite numbers. *)
Theorem TriangulateDLT_euclidean_returns (P1 : Mat34) (x1 : Vec3) (P2 : Mat34)
    (x2 : Vec3) (X_euclidean : Vec double) :
  exists X : Vec4,
    (forall X_homogeneous : Vec4,
       TriangulateDLT Nullspace P1 x1 P2 x2 X_homogeneous = Normal X) /\
    TriangulateDLT_euclidean Nullspace P1 x1 P2 x2 X_euclidean =
      Normal (vec3 (ddiv (Fin (X 0%nat)) (Fin (X 3%nat)))
                   (ddiv (Fin (X 1%nat)) (Fin (X 3%nat)))
                   (ddiv (Fin (X 2%nat)) (Fin (X 3%nat)))) /\
    (X 3%nat <> 0 ->
       TriangulateDLT_euclidean Nullspace P1 x1 P2 x2 X_euclidean =
       Normal (vec3 (Fin (X 0%nat / X 3%nat)) (Fin (X 1%nat / X 3%nat))
                    (Fin (X 2%nat / X 3%nat)))) /\
    (X 3%nat = 0 ->
       TriangulateDLT_euclidean Nullspace P1 x1 P2 x2 X_euclidean =
       Normal (vec3 NaN NaN NaN)).
Proof.
  eexists. split; [intros X_homogeneous; reflexivity|]. split; [reflexivity|].
  unfold TriangulateDLT_euclidean, TriangulateDLT, homogeneousToEuclidean, ddiv.
  split; intros H; destruct (Req_dec_T _ 0) as [H0|H0];
    try contradiction; reflexivity.
Qed.

(** C3.  On a valid input of strictly more than 8 correspondences the model
    [solve] returns has exactly two nonzero singular values, equal to each
    other, and a third that is zero, given that [JacobiSVD] returns a
    singular value decomposition of the linear estimate and [Nullspace] a
    unit vector.  With exactly 8 correspondences the correction is not
    run and nothing enforces this structure. *)
Theorem solve_essential_when_more_than_eight (x1 x2 : Mat)
    (models : list Mat3Model) :
  valid_input x1 x2 -> (8 < cols x1)%nat ->
  svd_of (linear_estimate Nullspace x1 x2)
         (JacobiSVD (linear_estimate Nullspace x1 x2)) ->
  squaredNorm 9 (Nullspace (epipolar_system x1 x2)) = 1 ->
  exists model : Mat3Model,
    solve Nullspace JacobiSVD x1 x2 models = Normal (models ++ [model]) /\
    is_essential (getMatrix model).
Proof.
  intros Hv Hlt Hsvd Hunit.
  rewrite (solve_valid _ _ models Hv).
  apply Nat.ltb_lt in Hlt. rewrite Hlt.
  eexists. split; [reflexivity|]. simpl.
  pose proof (svd_of_unit_positive _ _ Hsvd Hunit) as Hpos.
  destruct Hsvd as (HU & HV & Hord & Hd2 & _).
  set (USV := JacobiSVD (linear_estimate Nullspace x1 x2)) in *.
  exists ((singularValues USV 0%nat + singularValues USV 1%nat) / 2).
  split; [lra|].
  apply manifold_projection_singular_values; try assumption. lra.
Qed.

End Solver.

(** The sixteen columns of [eight_x1] and [eight_x2] are unit vectors. *)
Lemma eight_unit_columns : unit_columns eight_x1 /\ unit_columns eight_x2.
Proof.
  unfold unit_columns, squaredNorm3, dot3, col. simpl.
  split; repeat constructor; field.
Qed.

(** The system of the eight correspondences [eight_x1], [eight_x2] applied
    to a vector [e] of nine coefficients. *)
Lemma eight_system_times (e : Vec R) :
  vec_to_list 8 (mulv (epipolar_system eight_x1 eight_x2) e) =
  [e 1%nat; e 2%nat; e 3%nat; e 5%nat; e 6%nat; e 7%nat;
   12 / 25 * e 0%nat + 16 / 25 * e 1%nat - 9 / 25 * e 3%nat - 12 / 25 * e 4%nat;
   12 / 25 * e 4%nat + 16 / 25 * e 5%nat - 9 / 25 * e 7%nat - 12 / 25 * e 8%nat].
Proof.
  destruct (epipolar_system_sizes eight_x1 eight_x2) as [_ Hc].
  unfold vec_to_list, mulv. rewrite Hc.
  cbv [seq map fold_right]. unfold epipolar_system.
  rewrite !encodeEpipolarEquation_coef by (simpl; lia).
  simpl. list_eq ltac:(field).
Qed.

(** Its unit null vectors are the identity matrix, read row after row,
    times a number whose square is one third. *)
Lemma eight_null_space (e : Vec R) :
  unit_null_vector (epipolar_system eight_x1 eight_x2) e ->
  mat3_to_lists (Map_RMat3 e) =
    [[e 0%nat; 0; 0]; [0; e 0%nat; 0]; [0; 0; e 0%nat]] /\
  3 * (e 0%nat * e 0%nat) = 1.
Proof.
  destruct (epipolar_system_sizes eight_x1 eight_x2) as [Hr Hc].
  intros [Hnull Hunit].
  rewrite Hr, eight_system_times in Hnull. rewrite Hc in Hunit.
  injection Hnull as E1 E2 E3 E5 E6 E7 H6 H7.
  unfold squaredNorm in Hunit. simpl in Hunit.
  rewrite E1, E2, E3, E5, E6, E7 in *.
  assert (E4 : e 4%nat = e 0%nat) by lra.
  assert (E8 : e 8%nat = e 0%nat) by lra.
  rewrite E4, E8 in Hunit.
  split; [|lra].
  unfold mat3_to_lists, vec_to_list, Map_RMat3. simpl.
  rewrite E1, E2, E3, E5, E6, E7, E4, E8. reflexivity.
Qed.

(** With the eight correspondences [eight_x1], [eight_x2], a valid input
    made of unit vectors, the null space of the system is the line of the
    identity matrix:
    whatever unit null vector [Nullspace] returns, the model of [solve] is a
    multiple of the identity, with three equal nonzero singular values, and
    not an essential matrix.  Such a unit null vector exists. *)
Lemma solve_on_eight_not_essential :
  valid_input eight_x1 eight_x2 /\ cols eight_x1 = 8%nat /\
  unit_columns eight_x1 /\ unit_columns eight_x2 /\
  unit_null_vector (epipolar_system eight_x1 eight_x2)
    (vec_of_list [/ sqrt 3; 0; 0; 0; / sqrt 3; 0; 0; 0; / sqrt 3]) /\
  (forall (Nullspace : Mat -> Vec R) (JacobiSVD : Mat3 -> SVD3),
     unit_null_vector (epipolar_system eight_x1 eight_x2)
                      (Nullspace (epipolar_system eight_x1 eight_x2)) ->
     exists model : Mat3Model,
       solve Nullspace JacobiSVD eight_x1 eight_x2 [] = Normal [model] /\
       ~ is_essential (getMatrix model)).
Proof.
  assert (Hv : valid_input eight_x1 eight_x2).
  { unfold valid_input. simpl. repeat split; lia. }
  destruct (epipolar_system_sizes eight_x1 eight_x2) as [Hr Hc].
  split; [exact Hv|]. split; [reflexivity|].
  split; [apply eight_unit_columns|]. split; [apply eight_unit_columns|]. split.
  - unfold unit_null_vector. rewrite Hr, Hc. split.
    + change (cols eight_x1) with 8%nat. rewrite eight_system_times.
      unfold vec_of_list. simpl. list_ring.
    + unfold squaredNorm, vec_of_list. simpl.
      assert (H3 : sqrt 3 * sqrt 3 = 3) by (apply sqrt_sqrt; lra).
      assert (Hs : sqrt 3 <> 0) by (intros H0; rewrite H0 in H3; lra).
      field_simplify_eq; [|exact Hs]. lra.
  - intros Nullspace JacobiSVD Hnull.
    apply eight_null_space in Hnull. destruct Hnull as [HE Hunit].
    exists (mkModel (linear_estimate Nullspace eight_x1 eight_x2)).
    split; [apply (solve_valid Nullspace JacobiSVD _ _ [] Hv)|].
    unfold linear_estimate. simpl getMatrix.
    set (e := Nullspace (epipolar_system eight_x1 eight_x2)) in *.
    intros Hess. apply is_essential_zero_det in Hess.
    unfold mat3_to_lists, vec_to_list, Map_RMat3 in HE. simpl in HE.
    injection HE as E1 E2 E3 E4 E5 E6 E7 E8.
    unfold det3, Map_RMat3 in Hess. simpl in Hess.
    rewrite E1, E2, E3, E4, E5, E6, E7, E8 in Hess.
    assert (Hcube : e 0%nat * (e 0%nat * e 0%nat) = 0) by lra.
    apply Rmult_integral in Hcube. destruct Hcube as [Hz|Hz].
    + rewrite Hz in Hunit. lra.
    + apply Rmult_integral in Hz. destruct Hz as [Hz|Hz]; rewrite Hz in Hunit; lra.
Qed.

(** ** The theorems at concrete inputs *)

Lemma nine_valid : valid_input nine_x1 nine_x2.
Proof. unfold valid_input. simpl. repeat split; lia. Qed.

Lemma nine_cols : (8 < cols nine_x1)%nat.
Proof. simpl. lia. Qed.

(** [nine_USV] is a singular value decomposition of the matrix read from
    [nine_e], and [nine_e] is a unit vector. *)
Lemma nine_svd :
  svd_of (linear_estimate nine_Nullspace nine_x1 nine_x2)
         (nine_JacobiSVD (linear_estimate nine_Nullspace nine_x1 nine_x2)).
Proof.
  unfold svd_of, nine_JacobiSVD, linear_estimate, nine_Nullspace, nine_USV,
    orthogonal3, mat3_to_lists, vec_to_list, svd_product, identity3, mmul3,
    transpose, asDiagonal, Map_RMat3, nine_e, mat3_of_rows, vec_of_list.
  simpl.
  split; [list_ring|]. split; [list_ring|]. split; [lra|]. split; [lra|].
  list_eq ltac:(field).
Qed.

Lemma nine_unit : squaredNorm 9 (nine_Nullspace (epipolar_system nine_x1 nine_x2)) = 1.
Proof.
  unfold nine_Nullspace, squaredNorm, nine_e, vec_of_list. simpl. field.
Qed.

(** What [nine_Nullspace] returns is a unit vector of the null space of the
    system of the nine correspondences. *)
Lemma nine_unit_null_vector :
  unit_null_vector (epipolar_system nine_x1 nine_x2)
                   (nine_Nullspace (epipolar_system nine_x1 nine_x2)).
Proof.
  destruct (epipolar_system_sizes nine_x1 nine_x2) as [Hr Hc].
  unfold unit_null_vector. rewrite Hr, Hc. split; [|exact nine_unit].
  change (cols nine_x1) with 9%nat.
  unfold vec_to_list, mulv. rewrite Hc.
  cbv [seq map fold_right repeat]. unfold epipolar_system.
  rewrite !encodeEpipolarEquation_coef by (simpl; lia).
  unfold nine_Nullspace, nine_e, vec_of_list. simpl. list_eq ltac:(field).
Qed.

(** C3 at the nine correspondences. *)
Lemma solve_essential_when_more_than_eight_witness :
  exists model : Mat3Model,
    solve nine_Nullspace nine_JacobiSVD nine_x1 nine_x2 [] = Normal ([] ++ [model]) /\
    is_essential (getMatrix model).
Proof.
  apply (solve_essential_when_more_than_eight nine_Nullspace nine_JacobiSVD
           nine_x1 nine_x2 []).
  - exact nine_valid.
  - exact nine_cols.
  - exact nine_svd.
  - exact nine_unit.
Defined.

(** C4 at the nine correspondences: the model is the corrected one, with
    the singular values 7/10, 7/10 and 0. *)
Lemma solve_corrects_iff_more_than_eight_witness :
  let E := linear_estimate nine_Nullspace nine_x1 nine_x2 in
  let USV := nine_JacobiSVD E in
  let s := (singularValues USV 0%nat + singularValues USV 1%nat) / 2 in
  ((8 < cols nine_x1)%nat ->
     solve nine_Nullspace nine_JacobiSVD nine_x1 nine_x2 [] =
     Normal ([] ++ [mkModel (svd_product (matrixU USV) (vec3 s s 0) (matrixV USV))])) /\
  (cols nine_x1 = 8%nat ->
     solve nine_Nullspace nine_JacobiSVD nine_x1 nine_x2 [] =
     Normal ([] ++ [mkModel E])) /\
  ((8 < cols nine_x1)%nat ->
     orthogonal3 (matrixU USV) -> orthogonal3 (matrixV USV) ->
     0 <= singularValues USV 0%nat + singularValues USV 1%nat ->
     forall model : Mat3Model,
       solve nine_Nullspace nine_JacobiSVD nine_x1 nine_x2 [] =
       Normal ([] ++ [model]) ->
       has_singular_values (getMatrix model) s s 0).
Proof.
  apply (solve_corrects_iff_more_than_eight nine_Nullspace nine_JacobiSVD
           nine_x1 nine_x2 []).
  exact nine_valid.
Defined.

(** C5 at the nine correspondences. *)
Lemma solve_appends_one_model_witness :
  getMinimumNbRequiredSamples = 8%nat /\
  getMaximumNbModels = 1%nat /\
  exists model : Mat3Model,
    solve nine_Nullspace nine_JacobiSVD nine_x1 nine_x2 [] = Normal ([] ++ [model]) /\
    List.length ([] ++ [model]) = (List.length (@nil Mat3Model) + getMaximumNbModels)%nat.
Proof.
  apply (solve_appends_one_model nine_Nullspace nine_JacobiSVD nine_x1 nine_x2 []).
  exact nine_valid.
Defined.

(** C10 at the kernel of nine correspondences and a sample of three. *)
Lemma fit_checks_stored_set_witness :
  fit nine_Nullspace nine_JacobiSVD nine_kernel [0; 1; 2]%nat [] <> Abort /\
  exists model : Mat3Model,
    fit nine_Nullspace nine_JacobiSVD nine_kernel [0; 1; 2]%nat [] =
    Normal ([] ++ [model]).
Proof.
  apply (fit_checks_stored_set nine_Nullspace nine_JacobiSVD nine_kernel []).
  exact nine_valid.
Defined.

(** C8 at the point (1, 0) of a 4 x 2 panorama, a pole. *)
Lemma planarToSpherical_unit_directions_witness :
  let out := planarToSpherical one_point 4 2 (mkMat 0 0 (fun _ _ => NaN)) in
  let direction :=
    spherical_direction (coef one_point 0 0) (coef one_point 1 0) 4 2 in
  rows out = 3%nat /\ cols out = cols one_point /\
  vec_to_list 3 (col out 0) = map Fin (vec_to_list 3 direction) /\
  norm3 direction = 1.
Proof.
  apply (planarToSpherical_unit_directions one_point 4 2
           (mkMat 0 0 (fun _ _ => NaN)) 0).
  - lia.
  - lia.
  - simpl. lia.
Defined.

(** ** Further properties of the code *)

(** *** The epipolar system *)

Lemma mulv_nine (A : Mat) (e : Vec R) (i : nat) :
  cols A = 9%nat ->
  mulv A e i =
  coef A i 0 * e 0%nat + (coef A i 1 * e 1%nat + (coef A i 2 * e 2%nat +
  (coef A i 3 * e 3%nat + (coef A i 4 * e 4%nat + (coef A i 5 * e 5%nat +
  (coef A i 6 * e 6%nat + (coef A i 7 * e 7%nat + (coef A i 8 * e 8%nat + 0)))))))).
Proof. intros H. unfold mulv. rewrite H. reflexivity. Qed.

(** Row [i] of the system [encodeEpipolarEquation] builds, applied to nine
    coefficients [e], is [x2_i^T * E * x1_i] for the matrix [E] that
    [Map<RMat3>] reads from [e]: the row encodes the epipolar constraint of
    the correspondence [i] in the order in which [solve] reads the solution
    back. *)
Lemma epipolar_system_row (x1 x2 : Mat) (e : Vec9) (i : nat) :
  (i < cols x1)%nat ->
  mulv (epipolar_system x1 x2) e i =
  dot3 (col x2 i) (mulv3 (Map_RMat3 e) (col x1 i)).
Proof.
  intros Hi. destruct (epipolar_system_sizes x1 x2) as [_ Hc].
  rewrite (mulv_nine _ _ _ Hc). unfold epipolar_system.
  rewrite !encodeEpipolarEquation_coef by (first [assumption | lia]).
  unfold dot3, mulv3, Map_RMat3, col. simpl. ring.
Qed.

(** Nine coefficients [e] are a null vector of the system exactly when the
    matrix [E] that [solve] reads from them satisfies the epipolar
    constraint [x2_i^T * E * x1_i = 0] of every correspondence. *)
Theorem epipolar_system_null_iff (x1 x2 : Mat) (e : Vec9) :
  (forall i : nat, (i < cols x1)%nat -> mulv (epipolar_system x1 x2) e i = 0) <->
  (forall i : nat, (i < cols x1)%nat ->
     dot3 (col x2 i) (mulv3 (Map_RMat3 e) (col x1 i)) = 0).
Proof.
  split; intros H i Hi.
  - rewrite <- epipolar_system_row by assumption. now apply H.
  - rewrite epipolar_system_row by assumption. now apply H.
Qed.

(** Exchanging the two point sets transposes the unknown: row [i] of the
    system of [(x2, x1)] applied to [E^T] is row [i] of the system of
    [(x1, x2)] applied to [E]. *)
Theorem epipolar_system_swap (x1 x2 : Mat) (E : Mat3) (i : nat) :
  (i < cols x1)%nat -> (i < cols x2)%nat ->
  mulv (epipolar_system x2 x1) (flatten3 (transpose E)) i =
  mulv (epipolar_system x1 x2) (flatten3 E) i.
Proof.
  intros H1 H2.
  destruct (epipolar_system_sizes x1 x2) as [_ Hc].
  destruct (epipolar_system_sizes x2 x1) as [_ Hc'].
  rewrite (mulv_nine _ _ _ Hc), (mulv_nine _ _ _ Hc'). unfold epipolar_system.
  rewrite !encodeEpipolarEquation_coef by (first [assumption | lia]).
  unfold flatten3, transpose. simpl. ring.
Qed.

Lemma epipolar_system_swap_witness :
  mulv (epipolar_system nine_x2 nine_x1) (flatten3 (transpose epi_E)) 8%nat =
  mulv (epipolar_system nine_x1 nine_x2) (flatten3 epi_E) 8%nat.
Proof.
  apply (epipolar_system_swap nine_x1 nine_x2 epi_E 8%nat); simpl; lia.
Defined.

Lemma encodeEpipolarEquation_body_other_row (x1 x2 A : Mat) (i r c : nat) :
  r <> i -> coef (encodeEpipolarEquation_body x1 x2 A i) r c = coef A r c.
Proof.
  intros Hr. apply Nat.eqb_neq in Hr.
  unfold encodeEpipolarEquation_body, mset. simpl. rewrite Hr. reflexivity.
Qed.

Lemma encodeEpipolarEquation_fold_other_row (x1 x2 : Mat) (l : list nat)
    (A : Mat) (r c : nat) :
  ~ In r l ->
  coef (fold_left (encodeEpipolarEquation_body x1 x2) l A) r c = coef A r c.
Proof.
  revert A. induction l as [|i l IH]; intros A Hn; simpl; [reflexivity|].
  rewrite IH by (intros H; apply Hn; now right).
  apply encodeEpipolarEquation_body_other_row.
  intros ->. apply Hn. now left.
Qed.

(** [encodeEpipolarEquation] writes the rows below [x1.cols()] and nothing
    else: it keeps the two sizes of [A] and every coefficient of the other
    rows, and in the rows it writes the first nine coefficients do not
    depend on what [A] held. *)
Theorem encodeEpipolarEquation_frame (x1 x2 A A' : Mat) :
  rows (encodeEpipolarEquation x1 x2 A) = rows A /\
  cols (encodeEpipolarEquation x1 x2 A) = cols A /\
  (forall r c : nat, (cols x1 <= r)%nat ->
     coef (encodeEpipolarEquation x1 x2 A) r c = coef A r c) /\
  (forall r c : nat, (r < cols x1)%nat -> (c < 9)%nat ->
     coef (encodeEpipolarEquation x1 x2 A) r c =
     coef (encodeEpipolarEquation x1 x2 A') r c).
Proof.
  unfold encodeEpipolarEquation.
  destruct (encodeEpipolarEquation_sizes x1 x2 (seq 0 (cols x1)) A) as [Hr Hc].
  split; [exact Hr|]. split; [exact Hc|]. split.
  - intros r c Hle. apply encodeEpipolarEquation_fold_other_row.
    rewrite in_seq. lia.
  - intros r c Hr' Hc'.
    fold (encodeEpipolarEquation x1 x2 A). fold (encodeEpipolarEquation x1 x2 A').
    rewrite !encodeEpipolarEquation_coef by assumption. reflexivity.
Qed.

(** *** More on the angular error *)

Lemma dot3_normalize (x v : Vec3) :
  0 < squaredNorm3 v -> dot3 x (normalize v) = dot3 x v / norm3 v.
Proof.
  intros Hz. pose proof (sqrt_lt_R0 _ Hz) as Hs.
  unfold dot3, normalize. fold (norm3 v) in Hs. field. lra.
Qed.

(** In exact arithmetic the normalisation of [E * x1] inside [error] cancels
    out: the argument of [asin] is the cosine of the angle between [x2] and
    [E * x1]. *)
Lemma error_quotient (model : Mat3Model) (x1 x2 : Vec3) :
  0 < squaredNorm3 (mulv3 (getMatrix model) x1) ->
  0 < squaredNorm3 x2 ->
  let v := mulv3 (getMatrix model) x1 in
  let q := dot3 x2 v / (norm3 x2 * norm3 v) in
  -1 <= q <= 1 /\ error model x1 x2 = Fin (Rabs (asin q)).
Proof.
  intros HE Hx2 v q.
  assert (Hnv : 0 < norm3 v) by (apply sqrt_lt_R0, HE).
  assert (Hn2 : 0 < norm3 x2) by (apply sqrt_lt_R0, Hx2).
  assert (Hd : 0 < norm3 x2 * norm3 v) by (apply Rmult_lt_0_compat; assumption).
  pose proof (dot3_abs_le x2 v) as Hcs.
  assert (Hq : q * (norm3 x2 * norm3 v) = dot3 x2 v) by (unfold q; field; lra).
  assert (Hb : - (norm3 x2 * norm3 v) <= dot3 x2 v <= norm3 x2 * norm3 v).
  { split; [apply Ropp_le_cancel; rewrite Ropp_involutive|];
      (eapply Rle_trans; [|exact Hcs]).
    - rewrite <- Rabs_Ropp. apply Rle_abs.
    - apply Rle_abs. }
  assert (Hq1 : -1 <= q <= 1) by (split; nra).
  split; [exact Hq1|].
  unfold error. rewrite (normalized3_nonzero _ HE).
  change (mulv3 (getMatrix model) x1) with v.
  rewrite (norm3_normalize v HE), (dot3_normalize x2 v HE).
  rewrite ddiv_Fin by lra.
  replace (dot3 x2 v / norm3 v / (norm3 x2 * 1)) with q by (unfold q; field; lra).
  unfold dasin.
  destruct (Rlt_dec q (-1)) as [H|_]; [lra|].
  destruct (Rlt_dec 1 q) as [H|_]; [lra|].
  reflexivity.
Qed.

Lemma error_NaN_x2 (model : Mat3Model) (x1 x2 : Vec3) :
  squaredNorm3 x2 = 0 -> error model x1 x2 = NaN.
Proof.
  intros Hz. unfold error.
  unfold norm3 at 1. rewrite Hz, sqrt_0, Rmult_0_l, ddiv_zero. reflexivity.
Qed.


Lemma error_zero_of_constraint (model : Mat3Model) (x1 x2 : Vec3) :
  0 < squaredNorm3 (mulv3 (getMatrix model) x1) ->
  0 < squaredNorm3 x2 ->
  dot3 x2 (mulv3 (getMatrix model) x1) = 0 ->
  error model x1 x2 = Fin 0.
Proof.
  intros HE Hx2 Hdot.
  destruct (error_quotient model x1 x2 HE Hx2) as [_ ->].
  rewrite Hdot. unfold Rdiv. rewrite Rmult_0_l, asin_0, Rabs_R0. reflexivity.
Qed.







Lemma squaredNorm3_scaled (v' v : Vec3) (k : R) :
  v' 0%nat = k * v 0%nat -> v' 1%nat = k * v 1%nat -> v' 2%nat = k * v 2%nat ->
  squaredNorm3 v' = k * k * squaredNorm3 v.
Proof. intros H0 H1 H2. unfold squaredNorm3, dot3. rewrite H0, H1, H2. ring. Qed.

Lemma norm3_scaled (v' v : Vec3) (k : R) :
  v' 0%nat = k * v 0%nat -> v' 1%nat = k * v 1%nat -> v' 2%nat = k * v 2%nat ->
  norm3 v' = Rabs k * norm3 v.
Proof.
  intros H0 H1 H2. unfold norm3.
  rewrite (squaredNorm3_scaled v' v k H0 H1 H2).
  rewrite sqrt_mult; [|apply Rle_0_sqr|apply squaredNorm3_nonneg].
  change (k * k) with (Rsqr k). rewrite sqrt_Rsqr_abs. reflexivity.
Qed.

(** The error does not change when the model, [x1] or [x2] is replaced by
    its opposite (each of [c], [s], [t] is 1 or -1): it depends on the model
    up to sign, as [Nullspace] gives it, and on the sense of neither
    direction. *)
Theorem error_sign_invariant (E : Mat3) (x1 x2 : Vec3) (c s t : R) :
  c = 1 \/ c = -1 -> s = 1 \/ s = -1 -> t = 1 \/ t = -1 ->
  error (mkModel (scale3 c E)) (scalev s x1) (scalev t x2) =
  error (mkModel E) x1 x2.
Proof.
  intros Hc1 Hs1 Ht1.
  assert (Hc : c <> 0) by (destruct Hc1; lra).
  assert (Hs : s <> 0) by (destruct Hs1; lra).
  assert (Ht : t <> 0) by (destruct Ht1; lra).
  set (v := mulv3 E x1). set (v' := mulv3 (scale3 c E) (scalev s x1)).
  set (x2' := scalev t x2).
  assert (Hcs : c * s <> 0) by (apply Rmult_integral_contrapositive; tauto).
  assert (V0 : v' 0%nat = c * s * v 0%nat)
    by (unfold v', v, mulv3, scale3, scalev; ring).
  assert (V1 : v' 1%nat = c * s * v 1%nat)
    by (unfold v', v, mulv3, scale3, scalev; ring).
  assert (V2 : v' 2%nat = c * s * v 2%nat)
    by (unfold v', v, mulv3, scale3, scalev; ring).
  assert (T0 : x2' 0%nat = t * x2 0%nat) by reflexivity.
  assert (T1 : x2' 1%nat = t * x2 1%nat) by reflexivity.
  assert (T2 : x2' 2%nat = t * x2 2%nat) by reflexivity.
  pose proof (squaredNorm3_scaled v' v (c * s) V0 V1 V2) as Hsv.
  pose proof (squaredNorm3_scaled x2' x2 t T0 T1 T2) as Hsx.
  pose proof (squaredNorm3_nonneg v) as Hv0.
  pose proof (squaredNorm3_nonneg x2) as Hx0.
  assert (Hcs2 : 0 < c * s * (c * s)) by nra.
  assert (Ht2 : 0 < t * t) by nra.
  destruct (Req_dec (squaredNorm3 v) 0) as [Ev|Ev].
  { rewrite (error_NaN (mkModel E) x1 x2 Ev).
    apply error_NaN. simpl getMatrix. fold v'. rewrite Hsv, Ev. ring. }
  destruct (Req_dec (squaredNorm3 x2) 0) as [Ex|Ex].
  { rewrite (error_NaN_x2 (mkModel E) x1 x2 Ex).
    apply error_NaN_x2. fold x2'. rewrite Hsx, Ex. ring. }
  assert (Hv : 0 < squaredNorm3 v) by lra.
  assert (Hx : 0 < squaredNorm3 x2) by lra.
  assert (Hv' : 0 < squaredNorm3 v') by (rewrite Hsv; nra).
  assert (Hx' : 0 < squaredNorm3 x2') by (rewrite Hsx; nra).
  destruct (error_quotient (mkModel E) x1 x2 Hv Hx) as [_ ->].
  destruct (error_quotient (mkModel (scale3 c E)) (scalev s x1) x2' Hv' Hx')
    as [_ ->].
  simpl getMatrix. fold v v'. f_equal.
  assert (Hnv : 0 < norm3 v) by (apply sqrt_lt_R0, Hv).
  assert (Hn2 : 0 < norm3 x2) by (apply sqrt_lt_R0, Hx).
  rewrite (norm3_scaled v' v (c * s) V0 V1 V2).
  rewrite (norm3_scaled x2' x2 t T0 T1 T2).
  replace (dot3 x2' v') with (t * (c * s) * dot3 x2 v)
    by (unfold dot3; rewrite V0, V1, V2, T0, T1, T2; ring).
  replace (Rabs t * norm3 x2 * (Rabs (c * s) * norm3 v))
    with (Rabs (t * (c * s)) * (norm3 x2 * norm3 v))
    by (rewrite Rabs_mult; ring).
  set (k := t * (c * s)).
  assert (Hk : k <> 0) by (apply Rmult_integral_contrapositive; tauto).
  destruct (Rlt_le_dec 0 k) as [Hpos|Hneg].
  - rewrite (Rabs_right k) by lra.
    replace (k * dot3 x2 v / (k * (norm3 x2 * norm3 v)))
      with (dot3 x2 v / (norm3 x2 * norm3 v)) by (field; lra).
    reflexivity.
  - rewrite (Rabs_left k) by lra.
    replace (k * dot3 x2 v / (- k * (norm3 x2 * norm3 v)))
      with (- (dot3 x2 v / (norm3 x2 * norm3 v))) by (field; lra).
    rewrite asin_opp, Rabs_Ropp. reflexivity.
Qed.

Lemma error_sign_invariant_witness :
  error (mkModel (scale3 (-1) epi_E)) (scalev 1 axis_x) (scalev (-1) axis_z) =
  error (mkModel epi_E) axis_x axis_z.
Proof.
  apply (error_sign_invariant epi_E axis_x axis_z (-1) 1 (-1)).
  - right. reflexivity.
  - left. reflexivity.
  - right. reflexivity.
Defined.

(** *** More on the projection on the sphere *)

(** The column [c] of the output is the vector computed for the point [c]. *)
Lemma planarToSpherical_col (planarCoords : Mat) (width height : nat)
    (sphericalCoords : MatOf double) (c : nat) :
  (c < cols planarCoords)%nat ->
  vec_to_list 3 (col (planarToSpherical planarCoords width height sphericalCoords) c) =
  vec_to_list 3 (planarToSpherical_column planarCoords width height c).
Proof.
  intros Hc. unfold vec_to_list, col, planarToSpherical. simpl.
  rewrite !planarToSpherical_fold_coef by lia.
  rewrite existsb_eqb_seq. apply Nat.ltb_lt in Hc. rewrite Hc. reflexivity.
Qed.

(** The normalisation leaves the three coordinates as they are. *)
Lemma spherical_direction_value (x y : R) (width height : nat) :
  vec_to_list 3 (spherical_direction x y width height) =
  [sin (y / INR height * PI) * cos (PI * (2 * (x / INR width) + 5 / 10));
   cos (y / INR height * PI);
   sin (y / INR height * PI) * sin (PI * (2 * (x / INR width) + 5 / 10))].
Proof.
  unfold spherical_direction, vec_to_list, normalize, norm3. cbv zeta.
  rewrite equirectangular_squaredNorm, sqrt_1. simpl. list_eq ltac:(field).
Qed.

Lemma planarToSpherical_value (planarCoords : Mat) (width height : nat)
    (sphericalCoords : MatOf double) (c : nat) :
  (0 < width)%nat -> (0 < height)%nat -> (c < cols planarCoords)%nat ->
  vec_to_list 3 (col (planarToSpherical planarCoords width height sphericalCoords) c) =
  map Fin
    [sin (coef planarCoords 1 c / INR height * PI)
       * cos (PI * (2 * (coef planarCoords 0 c / INR width) + 5 / 10));
     cos (coef planarCoords 1 c / INR height * PI);
     sin (coef planarCoords 1 c / INR height * PI)
       * sin (PI * (2 * (coef planarCoords 0 c / INR width) + 5 / 10))].
Proof.
  intros Hw Hh Hc. rewrite planarToSpherical_col by assumption.
  rewrite <- spherical_direction_value.
  unfold vec_to_list. simpl.
  rewrite !planarToSpherical_column_Fin by assumption. reflexivity.
Qed.

(** Moving a point by one width along the first axis does not change its
    direction: the panorama wraps around, with no test in the code. *)
Theorem planarToSpherical_wraps (planarCoords planarCoords' : Mat)
    (width height : nat) (sphericalCoords sphericalCoords' : MatOf double)
    (c : nat) :
  (0 < width)%nat -> (0 < height)%nat ->
  (c < cols planarCoords)%nat -> (c < cols planarCoords')%nat ->
  coef planarCoords' 0 c = coef planarCoords 0 c + INR width ->
  coef planarCoords' 1 c = coef planarCoords 1 c ->
  vec_to_list 3 (col (planarToSpherical planarCoords' width height sphericalCoords') c) =
  vec_to_list 3 (col (planarToSpherical planarCoords width height sphericalCoords) c).
Proof.
  intros Hw Hh Hc Hc' Hx Hy.
  rewrite !planarToSpherical_value by assumption. rewrite Hx, Hy.
  assert (Hw' : INR width <> 0) by (apply not_0_INR; lia).
  replace (PI * (2 * ((coef planarCoords 0 c + INR width) / INR width) + 5 / 10))
    with (PI * (2 * (coef planarCoords 0 c / INR width) + 5 / 10) + 2 * INR 1 * PI)
    by (simpl; field; exact Hw').
  rewrite cos_period, sin_period. reflexivity.
Qed.

Lemma planarToSpherical_wraps_witness :
  vec_to_list 3 (col (planarToSpherical mid_point_wrapped 4 2
                        (mkMat 0 0 (fun _ _ => NaN))) 0) =
  vec_to_list 3 (col (planarToSpherical mid_point 4 2
                        (mkMat 0 0 (fun _ _ => NaN))) 0).
Proof.
  apply (planarToSpherical_wraps mid_point mid_point_wrapped 4 2
           (mkMat 0 0 (fun _ _ => NaN)) (mkMat 0 0 (fun _ _ => NaN)) 0).
  - lia.
  - lia.
  - simpl. lia.
  - simpl. lia.
  - simpl. lra.
  - reflexivity.
Defined.

(** Moving a point by half a width turns its direction by half a turn
    about the second axis: the first and third coordinates change sign and
    the second stays. *)
Theorem planarToSpherical_half_turn (planarCoords planarCoords' : Mat)
    (width height : nat) (sphericalCoords sphericalCoords' : MatOf double)
    (c : nat) :
  (0 < width)%nat -> (0 < height)%nat ->
  (c < cols planarCoords)%nat -> (c < cols planarCoords')%nat ->
  coef planarCoords' 0 c = coef planarCoords 0 c + INR width / 2 ->
  coef planarCoords' 1 c = coef planarCoords 1 c ->
  exists d0 d1 d2 : R,
    vec_to_list 3 (col (planarToSpherical planarCoords width height sphericalCoords) c)
      = [Fin d0; Fin d1; Fin d2] /\
    vec_to_list 3 (col (planarToSpherical planarCoords' width height sphericalCoords') c)
      = [Fin (- d0); Fin d1; Fin (- d2)].
Proof.
  intros Hw Hh Hc Hc' Hx Hy.
  rewrite !planarToSpherical_value by assumption. rewrite Hx, Hy.
  assert (Hw' : INR width <> 0) by (apply not_0_INR; lia).
  replace (PI * (2 * ((coef planarCoords 0 c + INR width / 2) / INR width) + 5 / 10))
    with (PI * (2 * (coef planarCoords 0 c / INR width) + 5 / 10) + PI)
    by (field; exact Hw').
  rewrite neg_cos, neg_sin.
  do 3 eexists. split; [reflexivity|]. simpl.
  repeat (f_equal; try ring).
Qed.

Lemma planarToSpherical_half_turn_witness :
  exists d0 d1 d2 : R,
    vec_to_list 3 (col (planarToSpherical mid_point 4 2
                          (mkMat 0 0 (fun _ _ => NaN))) 0)
      = [Fin d0; Fin d1; Fin d2] /\
    vec_to_list 3 (col (planarToSpherical mid_point_opposite 4 2
                          (mkMat 0 0 (fun _ _ => NaN))) 0)
      = [Fin (- d0); Fin d1; Fin (- d2)].
Proof.
  apply (planarToSpherical_half_turn mid_point mid_point_opposite 4 2
           (mkMat 0 0 (fun _ _ => NaN)) (mkMat 0 0 (fun _ _ => NaN)) 0).
  - lia.
  - lia.
  - simpl. lia.
  - simpl. lia.
  - simpl. lra.
  - reflexivity.
Defined.

(** Every point of the top row ([y = 0]) goes to the direction (0, 1, 0) and
    every point of the row [y = height] to (0, -1, 0), whatever its first
    coordinate. *)
Theorem planarToSpherical_poles (planarCoords : Mat) (width height : nat)
    (sphericalCoords : MatOf double) (c : nat) :
  (0 < width)%nat -> (0 < height)%nat -> (c < cols planarCoords)%nat ->
  (coef planarCoords 1 c = 0 ->
   vec_to_list 3 (col (planarToSpherical planarCoords width height sphericalCoords) c)
     = [Fin 0; Fin 1; Fin 0]) /\
  (coef planarCoords 1 c = INR height ->
   vec_to_list 3 (col (planarToSpherical planarCoords width height sphericalCoords) c)
     = [Fin 0; Fin (-1); Fin 0]).
Proof.
  intros Hw Hh Hc.
  assert (Hh' : INR height <> 0) by (apply not_0_INR; lia).
  rewrite !planarToSpherical_value by assumption.
  split; intros Hy; rewrite Hy.
  - replace (0 / INR height * PI) with 0 by (field; exact Hh').
    rewrite sin_0, cos_0. simpl. repeat (f_equal; try ring).
  - replace (INR height / INR height * PI) with PI by (field; exact Hh').
    rewrite sin_PI, cos_PI. simpl. repeat (f_equal; try ring).
Qed.

Lemma planarToSpherical_poles_witness :
  (coef top_point 1 0 = 0 ->
   vec_to_list 3 (col (planarToSpherical top_point 4 2
                         (mkMat 0 0 (fun _ _ => NaN))) 0)
     = [Fin 0; Fin 1; Fin 0]) /\
  (coef top_point 1 0 = INR 2 ->
   vec_to_list 3 (col (planarToSpherical top_point 4 2
                         (mkMat 0 0 (fun _ _ => NaN))) 0)
     = [Fin 0; Fin (-1); Fin 0]).
Proof.
  apply (planarToSpherical_poles top_point 4 2 (mkMat 0 0 (fun _ _ => NaN)) 0).
  - lia.
  - lia.
  - simpl. lia.
Defined.

(** A width or a height of zero is not refused.  With a height of zero the
    three coordinates of every direction are [NaN]; with a width of zero and
    a positive height the first and the third are [NaN] and the second is
    [cos (y / height * PI)]: the vector is left as it is, not normalised. *)
Theorem planarToSpherical_zero_size (planarCoords : Mat)
    (sphericalCoords : MatOf double) (c : nat) :
  (c < cols planarCoords)%nat ->
  (forall width : nat,
     vec_to_list 3 (col (planarToSpherical planarCoords width 0 sphericalCoords) c)
       = [NaN; NaN; NaN]) /\
  (forall height : nat, (0 < height)%nat ->
     vec_to_list 3 (col (planarToSpherical planarCoords 0 height sphericalCoords) c)
       = [NaN; Fin (cos (coef planarCoords 1 c / INR height * PI)); NaN]).
Proof.
  intros Hc. split.
  - intros width. rewrite planarToSpherical_col by assumption.
    unfold planarToSpherical_column, of_size_t. cbv zeta.
    change (INR 0) with 0. rewrite ddiv_zero. reflexivity.
  - intros height Hh. rewrite planarToSpherical_col by assumption.
    assert (Hh' : INR height <> 0) by (apply not_0_INR; lia).
    unfold planarToSpherical_column, of_size_t, col. cbv zeta.
    change (INR 0) with 0. rewrite ddiv_zero, (ddiv_Fin _ _ Hh'). reflexivity.
Qed.

Lemma planarToSpherical_zero_size_witness :
  (forall width : nat,
     vec_to_list 3 (col (planarToSpherical mid_point width 0
                           (mkMat 0 0 (fun _ _ => NaN))) 0)
       = [NaN; NaN; NaN]) /\
  (forall height : nat, (0 < height)%nat ->
     vec_to_list 3 (col (planarToSpherical mid_point 0 height
                           (mkMat 0 0 (fun _ _ => NaN))) 0)
       = [NaN; Fin (cos (coef mid_point 1 0 / INR height * PI)); NaN]).
Proof.
  apply (planarToSpherical_zero_size mid_point (mkMat 0 0 (fun _ _ => NaN)) 0).
  simpl. lia.
Defined.

(** *** More on the triangulation *)

(** The system of [TriangulateDLT] applied to a homogeneous point [X] is
    [cross(x1, P1 * X)] above [cross(x2, P2 * X)]. *)
Lemma TriangulateDLT_design_mulv (P1 : Mat34) (x1 : Vec3) (P2 : Mat34)
    (x2 : Vec3) (X : Vec4) :
  vec_to_list 6 (mulv (TriangulateDLT_design P1 x1 P2 x2) X) =
  vec_to_list 3 (cross3 x1 (mulv34 P1 X)) ++ vec_to_list 3 (cross3 x2 (mulv34 P2 X)).
Proof.
  unfold vec_to_list, mulv, cross3, mulv34. simpl. list_ring.
Qed.

(** A vector whose cross product with [x] is zero is parallel to [x]. *)
Lemma cross3_zero_parallel (x y : Vec3) :
  vec_to_list 3 (cross3 x y) = [0; 0; 0] ->
  vec_to_list 3 (scalev (squaredNorm3 x) y) = vec_to_list 3 (scalev (dot3 x y) x).
Proof.
  unfold vec_to_list, cross3, scalev, squaredNorm3, dot3. simpl.
  intros H. injection H as A0 A1 A2.
  assert (P0 : x 0%nat * (x 1%nat * y 2%nat - x 2%nat * y 1%nat) = 0)
    by (rewrite A0; ring).
  assert (P1 : x 1%nat * (x 1%nat * y 2%nat - x 2%nat * y 1%nat) = 0)
    by (rewrite A0; ring).
  assert (P2 : x 2%nat * (x 1%nat * y 2%nat - x 2%nat * y 1%nat) = 0)
    by (rewrite A0; ring).
  assert (Q0 : x 0%nat * (x 2%nat * y 0%nat - x 0%nat * y 2%nat) = 0)
    by (rewrite A1; ring).
  assert (Q1 : x 1%nat * (x 2%nat * y 0%nat - x 0%nat * y 2%nat) = 0)
    by (rewrite A1; ring).
  assert (Q2 : x 2%nat * (x 2%nat * y 0%nat - x 0%nat * y 2%nat) = 0)
    by (rewrite A1; ring).
  assert (R0 : x 0%nat * (x 0%nat * y 1%nat - x 1%nat * y 0%nat) = 0)
    by (rewrite A2; ring).
  assert (R1 : x 1%nat * (x 0%nat * y 1%nat - x 1%nat * y 0%nat) = 0)
    by (rewrite A2; ring).
  assert (R2 : x 2%nat * (x 0%nat * y 1%nat - x 1%nat * y 0%nat) = 0)
    by (rewrite A2; ring).
  list_eq ltac:(lra).
Qed.

(** A point that the two cameras see along [x1] and [x2] ([P1 * X] a
    multiple of [x1] and [P2 * X] a multiple of [x2]) is a null vector of the
    system of [TriangulateDLT]. *)
Theorem TriangulateDLT_point_in_null_space (P1 : Mat34) (x1 : Vec3) (P2 : Mat34)
    (x2 : Vec3) (X : Vec4) (l1 l2 : R) :
  vec_to_list 3 (mulv34 P1 X) = vec_to_list 3 (scalev l1 x1) ->
  vec_to_list 3 (mulv34 P2 X) = vec_to_list 3 (scalev l2 x2) ->
  vec_to_list 6 (mulv (TriangulateDLT_design P1 x1 P2 x2) X) = repeat 0 6.
Proof.
  intros H1 H2. rewrite TriangulateDLT_design_mulv.
  remember (mulv34 P1 X) as y1 eqn:E1. remember (mulv34 P2 X) as y2 eqn:E2.
  clear E1 E2.
  unfold vec_to_list, scalev in H1, H2. simpl in H1, H2.
  injection H1 as A0 A1 A2. injection H2 as B0 B1 B2.
  unfold vec_to_list, cross3. simpl.
  rewrite A0, A1, A2, B0, B1, B2. list_ring.
Qed.

Lemma TriangulateDLT_point_in_null_space_witness :
  vec_to_list 6 (mulv (TriangulateDLT_design tri_P1 tri_x1 tri_P2 tri_x2) tri_X)
  = repeat 0 6.
Proof.
  apply (TriangulateDLT_point_in_null_space tri_P1 tri_x1 tri_P2 tri_x2 tri_X 1 1).
  - unfold vec_to_list, mulv34, scalev, tri_P1, tri_x1, tri_X, mat3_of_rows,
      vec_of_list. simpl. list_ring.
  - unfold vec_to_list, mulv34, scalev, tri_P2, tri_x2, tri_X, mat3_of_rows,
      vec_of_list. simpl. list_ring.
Defined.

(** *** More on the solver, the kernel and the triangulation *)

Lemma valid_input_dec (x1 x2 : Mat) : {valid_input x1 x2} + {~ valid_input x1 x2}.
Proof.
  unfold valid_input.
  destruct (Nat.eq_dec (rows x1) 3) as [H1|H1]; [|right; tauto].
  destruct (le_dec 8 (cols x1)) as [H2|H2]; [|right; tauto].
  destruct (Nat.eq_dec (rows x1) (rows x2)) as [H3|H3]; [|right; tauto].
  destruct (Nat.eq_dec (cols x1) (cols x2)) as [H4|H4]; [|right; tauto].
  left. tauto.
Qed.

(** The product [U * diag(a, b, 0) * V^T] is singular whatever [U] and [V]. *)
Lemma det3_svd_product_zero (U V : Mat3) (a b : R) :
  det3 (svd_product U (vec3 a b 0) V) = 0.
Proof.
  unfold det3, svd_product, mmul3, asDiagonal, transpose, vec3. simpl. ring.
Qed.

(** The unit vector [eight_e] is a null vector of the system of the eight
    correspondences. *)
Lemma eight_e_null (i : nat) :
  (i < cols eight_x1)%nat ->
  mulv (epipolar_system eight_x1 eight_x2) eight_e i = 0.
Proof.
  intros Hi. rewrite epipolar_system_row by exact Hi.
  simpl in Hi.
  assert (Hs : sqrt 3 <> 0) by (apply Rgt_not_eq, sqrt_lt_R0; lra).
  do 8 (destruct i as [|i];
    [unfold dot3, mulv3, Map_RMat3, col, eight_e, vec_of_list; simpl;
     field; exact Hs|]).
  lia.
Qed.

Section SolverFurther.

Variable Nullspace : Mat -> Vec R.
Variable JacobiSVD : Mat3 -> SVD3.

(** [solve] has two outcomes and never throws.  On a valid input it returns
    normally, and the model it appends is the same whatever list it is
    given, which it keeps as it is; on any other input it stops at an
    assertion, whatever the list. *)
Theorem solve_outcome (x1 x2 : Mat) :
  (valid_input x1 x2 /\
   exists model : Mat3Model, forall models : list Mat3Model,
     solve Nullspace JacobiSVD x1 x2 models = Normal (models ++ [model])) \/
  (~ valid_input x1 x2 /\
   forall models : list Mat3Model,
     solve Nullspace JacobiSVD x1 x2 models = Abort).
Proof.
  destruct (valid_input_dec x1 x2) as [Hv|Hn].
  - left. split; [exact Hv|]. eexists. intros models.
    apply (solve_valid Nullspace JacobiSVD _ _ models Hv).
  - right. split; [exact Hn|]. intros models.
    apply (solve_invalid Nullspace JacobiSVD _ _ models Hn).
Qed.

(** The outcome of [fit] does not depend on the sample: for any two lists of
    indices it is the same, namely the outcome of [solve] on the two stored
    point sets; the assertions of [fit] never stop a call that [solve] would
    let through. *)
Theorem fit_outcome_independent_of_sample (k : EssentialKernel_spherical)
    (samples samples' : list nat) (models : list Mat3Model) :
  fit Nullspace JacobiSVD k samples models =
    fit Nullspace JacobiSVD k samples' models /\
  fit Nullspace JacobiSVD k samples models =
    solve Nullspace JacobiSVD (_x1 k) (_x2 k) models.
Proof.
  rewrite !fit_solves_stored_sets. split; reflexivity.
Qed.

(** With strictly more than 8 correspondences the model of [solve] is a
    singular matrix, whatever [Nullspace] and [JacobiSVD] return: nothing is
    asked of the decomposition. *)
Theorem solve_more_than_eight_singular (x1 x2 : Mat) (models : list Mat3Model) :
  valid_input x1 x2 -> (8 < cols x1)%nat ->
  exists model : Mat3Model,
    solve Nullspace JacobiSVD x1 x2 models = Normal (models ++ [model]) /\
    det3 (getMatrix model) = 0.
Proof.
  intros Hv Hlt. rewrite (solve_valid Nullspace JacobiSVD _ _ models Hv).
  apply Nat.ltb_lt in Hlt. rewrite Hlt.
  eexists. split; [reflexivity|].
  apply det3_svd_product_zero.
Qed.

(** With exactly 8 correspondences, when [Nullspace] returns a null vector
    of the system, the model of [solve] fits the eight correspondences
    exactly: the error of each of them is zero wherever it is a number. *)
Theorem solve_eight_fits_exactly (x1 x2 : Mat) (models : list Mat3Model) :
  valid_input x1 x2 -> cols x1 = 8%nat ->
  (forall i : nat, (i < cols x1)%nat ->
     mulv (epipolar_system x1 x2) (Nullspace (epipolar_system x1 x2)) i = 0) ->
  exists model : Mat3Model,
    solve Nullspace JacobiSVD x1 x2 models = Normal (models ++ [model]) /\
    forall i : nat, (i < cols x1)%nat ->
      0 < squaredNorm3 (mulv3 (getMatrix model) (col x1 i)) ->
      0 < squaredNorm3 (col x2 i) ->
      error model (col x1 i) (col x2 i) = Fin 0.
Proof.
  intros Hv H8 Hnull. rewrite (solve_valid Nullspace JacobiSVD _ _ models Hv).
  rewrite H8. change (8 <? 8)%nat with false. cbv iota.
  eexists. split; [reflexivity|].
  intros i Hi HE Hx2. apply error_zero_of_constraint; try assumption.
  simpl getMatrix. unfold linear_estimate.
  rewrite <- epipolar_system_row by (rewrite H8; exact Hi).
  apply Hnull. rewrite H8. exact Hi.
Qed.

(** When [Nullspace] returns a null vector of the system, the point [X]
    that [TriangulateDLT] writes lies on both rays: [P1 * X] is parallel to
    [x1] and [P2 * X] to [x2], in the form
    [(x . x) * (P * X) = (x . (P * X)) * x]. *)
Theorem TriangulateDLT_on_both_rays (P1 : Mat34) (x1 : Vec3) (P2 : Mat34)
    (x2 : Vec3) (X_homogeneous : Vec4) :
  vec_to_list 6 (mulv (TriangulateDLT_design P1 x1 P2 x2)
                      (Nullspace (TriangulateDLT_design P1 x1 P2 x2)))
    = repeat 0 6 ->
  exists X : Vec4,
    TriangulateDLT Nullspace P1 x1 P2 x2 X_homogeneous = Normal X /\
    vec_to_list 3 (scalev (squaredNorm3 x1) (mulv34 P1 X)) =
      vec_to_list 3 (scalev (dot3 x1 (mulv34 P1 X)) x1) /\
    vec_to_list 3 (scalev (squaredNorm3 x2) (mulv34 P2 X)) =
      vec_to_list 3 (scalev (dot3 x2 (mulv34 P2 X)) x2).
Proof.
  intros Hnull. eexists. split; [reflexivity|].
  rewrite TriangulateDLT_design_mulv in Hnull.
  remember (mulv34 P1 (Nullspace (TriangulateDLT_design P1 x1 P2 x2))) as y1 eqn:E1.
  remember (mulv34 P2 (Nullspace (TriangulateDLT_design P1 x1 P2 x2))) as y2 eqn:E2.
  clear E1 E2.
  assert (H : vec_to_list 3 (cross3 x1 y1) = [0; 0; 0] /\
              vec_to_list 3 (cross3 x2 y2) = [0; 0; 0]).
  { unfold vec_to_list in *. simpl in *.
    injection Hnull as A0 A1 A2 B0 B1 B2.
    rewrite A0, A1, A2, B0, B1, B2. split; reflexivity. }
  split; apply cross3_zero_parallel; apply H.
Qed.

End SolverFurther.

Lemma solve_more_than_eight_singular_witness :
  exists model : Mat3Model,
    solve nine_Nullspace nine_JacobiSVD nine_x1 nine_x2 [] = Normal ([] ++ [model]) /\
    det3 (getMatrix model) = 0.
Proof.
  apply (solve_more_than_eight_singular nine_Nullspace nine_JacobiSVD
           nine_x1 nine_x2 []).
  - exact nine_valid.
  - exact nine_cols.
Defined.

Lemma eight_valid : valid_input eight_x1 eight_x2.
Proof. unfold valid_input. simpl. repeat split; lia. Qed.

Lemma solve_eight_fits_exactly_witness :
  exists model : Mat3Model,
    solve eight_Nullspace nine_JacobiSVD eight_x1 eight_x2 [] =
      Normal ([] ++ [model]) /\
    forall i : nat, (i < cols eight_x1)%nat ->
      0 < squaredNorm3 (mulv3 (getMatrix model) (col eight_x1 i)) ->
      0 < squaredNorm3 (col eight_x2 i) ->
      error model (col eight_x1 i) (col eight_x2 i) = Fin 0.
Proof.
  apply (solve_eight_fits_exactly eight_Nullspace nine_JacobiSVD
           eight_x1 eight_x2 []).
  - exact eight_valid.
  - reflexivity.
  - exact eight_e_null.
Defined.

Lemma tri_X_null :
  vec_to_list 6 (mulv (TriangulateDLT_design tri_P1 tri_x1 tri_P2 tri_x2) tri_X)
  = repeat 0 6.
Proof.
  rewrite TriangulateDLT_design_mulv.
  unfold vec_to_list, cross3, mulv34, tri_P1, tri_P2, tri_x1, tri_x2, tri_X,
    mat3_of_rows, vec_of_list. simpl. list_ring.
Qed.

Lemma TriangulateDLT_on_both_rays_witness :
  exists X : Vec4,
    TriangulateDLT tri_Nullspace tri_P1 tri_x1 tri_P2 tri_x2 (fun _ => 0) = Normal X /\
    vec_to_list 3 (scalev (squaredNorm3 tri_x1) (mulv34 tri_P1 X)) =
      vec_to_list 3 (scalev (dot3 tri_x1 (mulv34 tri_P1 X)) tri_x1) /\
    vec_to_list 3 (scalev (squaredNorm3 tri_x2) (mulv34 tri_P2 X)) =
      vec_to_list 3 (scalev (dot3 tri_x2 (mulv34 tri_P2 X)) tri_x2).
Proof.
  apply (TriangulateDLT_on_both_rays tri_Nullspace tri_P1 tri_x1 tri_P2 tri_x2
           (fun _ => 0)).
  unfold tri_Nullspace. exact tri_X_null.
Defined.

(** The output of [planarToSpherical] is written in full: its three rows and
    [planarCoords.cols()] columns do not depend on what [sphericalCoords]
    held, nor on the sizes it had. *)
Theorem planarToSpherical_overwrites_output (planarCoords : Mat)
    (width height : nat) (sphericalCoords sphericalCoords' : MatOf double) :
  to_lists (planarToSpherical planarCoords width height sphericalCoords) =
  to_lists (planarToSpherical planarCoords width height sphericalCoords').
Proof.
  unfold to_lists, planarToSpherical.
  destruct (planarToSpherical_fold_sizes planarCoords width height
              (seq 0 (cols planarCoords))
              (resize sphericalCoords 3 (cols planarCoords))) as [-> ->].
  destruct (planarToSpherical_fold_sizes planarCoords width height
              (seq 0 (cols planarCoords))
              (resize sphericalCoords' 3 (cols planarCoords))) as [-> ->].
  simpl rows. simpl cols.
  apply map_ext_in. intros r Hr. apply in_seq in Hr.
  apply map_ext_in. intros c Hc. apply in_seq in Hc.
  rewrite !planarToSpherical_fold_coef by lia.
  rewrite existsb_eqb_seq.
  assert (Hlt : (c <? cols planarCoords)%nat = true) by (apply Nat.ltb_lt; lia).
  rewrite Hlt. reflexivity.
Qed.
